(** * LeadScrapeMap: the lead scraper, its post-processing and its history store

    A shallow embedding of [google_maps_scraper.py] and [database.py].

    - Python [str] values are [string]s whose characters are read as the
      code points U+0000..U+00FF.  On that range [\d] of [re] and the digits
      of [float()] are exactly '0'..'9', [str.isspace] holds of 9..13,
      28..32, 133 and 160, and [str.lower] shifts 'A'..'Z' and
      U+00C0..U+00DE (U+00D7 apart) by 32.
    - A lead is the Python dict the scraper builds: a [gmap string string].
    - The browser is an environment: what a selector finds, what a click
      opens and which driver call raises are data of the run.  [time.sleep]
      and the progress callback (an observer, taken not to raise) are left
      out.
    - Python floats are IEEE binary64 values, as [spec_float].
    - [extract_phone_number] is defined in the source and called nowhere. *)

From Stdlib Require Import ZArith Ascii String.
From Stdlib Require Import Floats.SpecFloat.
From stdpp Require Import gmap strings list.

Local Open Scope Z_scope.
Local Open Scope nat_scope.

(** ** Python string primitives *)

Module Py.

Definition code (c : ascii) : N := N_of_ascii c.

Definition between (lo hi : N) (c : ascii) : bool :=
  ((lo <=? code c) && (code c <=? hi))%N.

(** [\d] and the digits of [float()] *)
Definition is_digit (c : ascii) : bool := between 48 57 c.

Definition is_upper_az (c : ascii) : bool := between 65 90 c.
Definition is_lower_az (c : ascii) : bool := between 97 122 c.
Definition is_alpha_az (c : ascii) : bool := is_upper_az c || is_lower_az c.

(** [str.isspace] of one character *)
Definition is_space (c : ascii) : bool :=
  between 9 13 c || between 28 32 c || (code c =? 133)%N || (code c =? 160)%N.

(** [str.lower] of one character *)
Definition lower_char (c : ascii) : ascii :=
  if is_upper_az c || (between 192 222 c && negb (code c =? 215)%N)
  then ascii_of_N (code c + 32) else c.

Fixpoint lower (s : string) : string :=
  match s with
  | EmptyString => EmptyString
  | String c s' => String (lower_char c) (lower s')
  end.

(** truth value of a [str] *)
Definition truthy (s : string) : bool :=
  match s with EmptyString => false | String _ _ => true end.

Fixpoint lstrip (s : string) : string :=
  match s with
  | EmptyString => EmptyString
  | String c s' => if is_space c then lstrip s' else s
  end.

Fixpoint rstrip (s : string) : string :=
  match s with
  | EmptyString => EmptyString
  | String c s' =>
      let r := rstrip s' in
      if is_space c && negb (truthy r) then EmptyString else String c r
  end.

(** [s.strip()] *)
Definition strip (s : string) : string := rstrip (lstrip s).

(** [s.startswith(p)] *)
Definition startswith (s p : string) : bool := String.prefix p s.

(** [s.replace(old, new)] for a non-empty [old]: occurrences are taken left
    to right without overlap; [skip] counts the characters of a matched
    occurrence still to be dropped. *)
Fixpoint replace_go (old new : string) (skip : nat) (s : string) : string :=
  match s with
  | EmptyString => EmptyString
  | String c s' =>
      match skip with
      | S k => replace_go old new k s'
      | O =>
          if String.prefix old s
          then new +:+ replace_go old new (String.length old - 1) s'
          else String c (replace_go old new 0 s')
      end
  end.

Definition replace (old new s : string) : string := replace_go old new 0 s.

(** [''.join(c for c in s if keep(c))] *)
Fixpoint filter_chars (keep : ascii -> bool) (s : string) : string :=
  match s with
  | EmptyString => EmptyString
  | String c s' =>
      if keep c then String c (filter_chars keep s') else filter_chars keep s'
  end.

(** the longest prefix of characters in a class, and what follows it *)
Fixpoint span (p : ascii -> bool) (s : string) : string * string :=
  match s with
  | EmptyString => (EmptyString, EmptyString)
  | String c s' =>
      if p c then let '(a, b) := span p s' in (String c a, b)
      else (EmptyString, s)
  end.

(** [x or ""] for an optional string *)
Definition or_empty (x : option string) : string := default "" x.

(** truth value of an optional string ([None] and [""] are false) *)
Definition truthy_opt (x : option string) : bool :=
  match x with Some s => truthy s | None => false end.

End Py.

(** ** [create_whatsapp_link] *)

(** [re.sub(r'[^\d+]', '', phone)] *)
Definition keep_digit_plus (c : ascii) : bool :=
  Py.is_digit c || (Py.code c =? 43)%N.

Definition clean_phone (phone : string) : string :=
  Py.filter_chars keep_digit_plus phone.

Definition create_whatsapp_link (phone : string) : string :=
  if negb (Py.truthy phone) then ""
  else
    let clean := clean_phone phone in
    if Py.truthy clean then "https://wa.me/" +:+ clean else "".

(** ** [extract_email]

    [re.search] of [[a-zA-Z0-9._%+-]+@[a-zA-Z0-9.-]+\.[a-zA-Z]{2,}]: the
    leftmost match, each [+] greedy and giving characters back when what
    follows it fails. *)

Definition email_local_char (c : ascii) : bool :=
  Py.is_alpha_az c || Py.is_digit c ||
  existsb (fun k => (Py.code c =? k)%N) [46; 95; 37; 43; 45]%N.

Definition email_domain_char (c : ascii) : bool :=
  Py.is_alpha_az c || Py.is_digit c ||
  existsb (fun k => (Py.code c =? k)%N) [46; 45]%N.

(** [\.[a-zA-Z]{2,}] at the head of [s] *)
Definition email_tld (s : string) : option string :=
  match s with
  | String c s' =>
      if (Py.code c =? 46)%N then
        let letters := fst (Py.span Py.is_alpha_az s') in
        if 2 <=? String.length letters then Some (String c letters) else None
      else None
  | EmptyString => None
  end.

(** after one domain character: more of them first, the top-level part here
    when that fails *)
Fixpoint email_domain_rest (s : string) : option string :=
  match s with
  | String c s' =>
      if email_domain_char c then
        match email_domain_rest s' with
        | Some m => Some (String c m)
        | None => email_tld s
        end
      else email_tld s
  | EmptyString => None
  end.

Definition email_domain (s : string) : option string :=
  match s with
  | String c s' =>
      if email_domain_char c then String c <$> email_domain_rest s' else None
  | EmptyString => None
  end.

(** [@] and the domain at the head of [s] *)
Definition email_at (s : string) : option string :=
  match s with
  | String c s' =>
      if (Py.code c =? 64)%N then String c <$> email_domain s' else None
  | EmptyString => None
  end.

Fixpoint email_local_rest (s : string) : option string :=
  match s with
  | String c s' =>
      if email_local_char c then
        match email_local_rest s' with
        | Some m => Some (String c m)
        | None => email_at s
        end
      else email_at s
  | EmptyString => None
  end.

(** the pattern matched at the head of [s] *)
Definition email_match (s : string) : option string :=
  match s with
  | String c s' =>
      if email_local_char c then String c <$> email_local_rest s' else None
  | EmptyString => None
  end.

Fixpoint email_search (s : string) : option string :=
  match email_match s with
  | Some m => Some m
  | None =>
      match s with
      | String _ s' => email_search s'
      | EmptyString => None
      end
  end.

Definition extract_email (text : string) : string :=
  if negb (Py.truthy text) then ""
  else match email_search text with Some m => m | None => "" end.

(** ** The detail view and [extract_business_details] *)

(** A Selenium element: its visible text and its attributes
    ([get_attribute] is [None] for an attribute that is not set). *)
Record WebElement := {
  text : string;
  attributes : gmap string string
}.

Definition get_attribute (e : WebElement) (a : string) : option string :=
  attributes e !! a.

(** The page the driver shows: [elements] gives, per CSS selector, the first
    element it matches ([safe_find_element] is [None] where there is none);
    [current_url] and [body_text] are [None] when reading them raises. *)
Record DetailView := {
  current_url : option string;
  elements : gmap string WebElement;
  body_text : option string
}.

Definition safe_find_element (driver : DetailView) (selector : string)
  : option WebElement := elements driver !! selector.

Abbreviation Lead := (gmap string string).

(** [lead[k]] and [lead.get(k, '')]; every key read with [lead[k]] is one the
    scraper has set *)
Definition field (lead : Lead) (k : string) : string := default "" (lead !! k).

Definition business_name_of (lead : Lead) : string := field lead "Business Name".

(** [for x in xs: ... if ...: ...; break]: the first candidate that yields *)
Fixpoint first_hit {A B : Type} (f : A -> option B) (xs : list A) : option B :=
  match xs with
  | [] => None
  | x :: xs' => match f x with Some b => Some b | None => first_hit f xs' end
  end.

Definition name_selectors : list string :=
  ["h1.DUwDvf"; "h1.fontHeadlineLarge"; "div.lMbq3e h1"; "h1"].

Definition address_selectors : list string :=
  ["button[data-item-id='address'] div.fontBodyMedium";
   "button[data-item-id='address']";
   "button[data-tooltip='Copy address'] div.fontBodyMedium";
   "div[data-item-id='address']"].

Definition phone_selectors : list string :=
  ["button[data-item-id^='phone:tel'] div.fontBodyMedium";
   "button[data-item-id^='phone'] div.fontBodyMedium";
   "button[data-tooltip='Copy phone number'] div.fontBodyMedium";
   "a[data-item-id^='phone']"].

Definition website_selectors : list string :=
  ["a[data-item-id='authority']";
   "a[data-tooltip='Open website']";
   "a[aria-label*='website']"].

Definition try_name (driver : DetailView) (selector : string) : option string :=
  match safe_find_element driver selector with
  | Some elem =>
      if Py.truthy (Py.strip (text elem)) then Some (Py.strip (text elem))
      else None
  | None => None
  end.

(** [elem.text.strip() if elem.text else elem.get_attribute("aria-label")],
    kept when it is true *)
Definition text_or_label (elem : WebElement) : option string :=
  let t := if Py.truthy (text elem) then Some (Py.strip (text elem))
           else get_attribute elem "aria-label" in
  if Py.truthy_opt t then t else None.

Definition try_labelled (prefix : string) (driver : DetailView)
    (selector : string) : option string :=
  match safe_find_element driver selector with
  | Some elem =>
      (fun t => Py.strip (Py.replace prefix "" t)) <$> text_or_label elem
  | None => None
  end.

Definition try_website (driver : DetailView) (selector : string)
  : option string :=
  match safe_find_element driver selector with
  | Some elem =>
      match get_attribute elem "href" with
      | Some href =>
          if Py.truthy href && negb (Py.startswith href "https://www.google.com")
          then Some href else None
      | None => None
      end
  | None => None
  end.

Definition empty_lead : Lead :=
  <["Reviews" := ""]> (<["Rating" := ""]> (<["Google Maps Link" := ""]>
  (<["Email" := ""]> (<["Website" := ""]> (<["WhatsApp Link" := ""]>
  (<["Phone" := ""]> (<["Address" := ""]> (<["Business Name" := ""]> ∅)))))))).

(** [lead[k] = v] when the step produced a value *)
Definition set_if (k : string) (v : option string) (lead : Lead) : Lead :=
  match v with Some s => <[k := s]> lead | None => lead end.

Definition set_phone (v : option string) (lead : Lead) : Lead :=
  match v with
  | Some p => <["WhatsApp Link" := create_whatsapp_link p]> (<["Phone" := p]> lead)
  | None => lead
  end.

Definition page_email (driver : DetailView) : option string :=
  let page_text := default "" (body_text driver) in
  if Py.truthy page_text then
    let email := extract_email page_text in
    if Py.truthy email then Some email else None
  else None.

Definition page_rating (driver : DetailView) : option string :=
  match safe_find_element driver "div.F7nice span[aria-hidden='true']" with
  | Some elem => if Py.truthy (text elem) then Some (Py.strip (text elem)) else None
  | None => None
  end.

Definition page_reviews (driver : DetailView) : option string :=
  match safe_find_element driver "div.F7nice span[aria-label*='review']" with
  | Some elem =>
      let aria_label := get_attribute elem "aria-label" in
      if Py.truthy_opt aria_label then aria_label else None
  | None => None
  end.

Definition extract_business_details (driver : DetailView) : Lead :=
  let lead := empty_lead in
  let lead := set_if "Google Maps Link" (current_url driver) lead in
  let lead := set_if "Business Name" (first_hit (try_name driver) name_selectors) lead in
  let lead := set_if "Address"
                (first_hit (try_labelled "Address: " driver) address_selectors) lead in
  let lead := set_phone (first_hit (try_labelled "Phone: " driver) phone_selectors) lead in
  let lead := set_if "Website" (first_hit (try_website driver) website_selectors) lead in
  let lead := set_if "Email" (page_email driver) lead in
  let lead := set_if "Rating" (page_rating driver) lead in
  set_if "Reviews" (page_reviews driver) lead.

(** ** Driver calls that can raise *)

Definition Exn : Type := string.

Inductive Outcome (A : Type) : Type :=
| Return (a : A)
| Raise (e : Exn).
Arguments Return {A} a.
Arguments Raise {A} e.

(** What clicking a card's link leads to: the click raises, reading the
    detail view raises, or the detail view is shown. *)
Inductive ClickResult : Type :=
| ClickRaises
| ViewRaises
| Opens (view : DetailView).

(** A [div.Nv2PK] card: its [a.hfpxzc] link ([None] when there is none) with
    the link's [aria-label] attribute, and what a click on it leads to. *)
Record Card := {
  link_label : option (option string);
  on_click : ClickResult
}.

(** ** [scroll_results_panel] *)

Definition max_scroll_attempts : nat := 20.

(** The [while] loop.  [polls k] is what the [k]-th query for [div.Nv2PK]
    returns (or that scrolling or querying raises); the loop state is
    [last_count] and [scroll_attempts]; the value is the number of queries
    made.  [None] is a loop that has not ended within [fuel] iterations. *)
Fixpoint scroll_loop (fuel : nat) (polls : nat -> Outcome (list Card))
    (max_results : Z) (k last_count scroll_attempts : nat)
  : option (Outcome nat) :=
  match fuel with
  | O => None
  | S fuel' =>
      if scroll_attempts <? max_scroll_attempts then
        match polls k with
        | Raise e => Some (Raise e)
        | Return business_items =>
            let current_count := length business_items in
            if (max_results <=? Z.of_nat current_count)%Z then Some (Return (S k))
            else if current_count =? last_count
            then scroll_loop fuel' polls max_results (S k) last_count (S scroll_attempts)
            else scroll_loop fuel' polls max_results (S k) current_count 0
        end
      else Some (Return k)
  end.

(** The loop, then one more query for the value returned. *)
Definition scroll_results_panel (fuel : nat) (polls : nat -> Outcome (list Card))
    (max_results : Z) : option (Outcome (list Card)) :=
  match scroll_loop fuel polls max_results 0 0 0 with
  | None => None
  | Some (Raise e) => Some (Raise e)
  | Some (Return k) => Some (polls k)
  end.

(** ** [scrape_google_maps] *)

(** One browser session, as the run meets it.
    - [launch url]: [get_chrome_driver()] and [driver.get(maps_url)] raise;
    - [buttons]: listing the consent buttons raises (the consent loop itself
      swallows its exceptions and changes nothing the result depends on);
    - [results_page]: what the container selectors find, or a lookup raises;
    - [polls]: the queries of the scroller;
    - [loaded]: the card list read after scrolling;
    - [listing idx]: the card list read afresh at iteration [idx]. *)
Record Session := {
  launch : string -> option Exn;
  buttons : option Exn;
  results_page : Outcome (gmap string WebElement);
  polls : nat -> Outcome (list Card);
  loaded : Outcome (list Card);
  listing : nat -> Outcome (list Card)
}.

Definition container_selectors : list string :=
  ["div[role='feed']"; "div.m6QErb.DxyBCb.kA9KIf.dS8AEf"; "div.m6QErb"].

(** [leads] and [processed_names] of the run, and [opened]: the indices of
    the cards whose link the run has clicked, in order. *)
Record Run := {
  leads : list Lead;
  processed_names : gset string;
  opened : list nat
}.

Definition start : Run :=
  {| leads := []; processed_names := ∅; opened := [] |}.

Inductive Flow : Type := Continue | Break.

(** [if not lead["Business Name"] and business_name: ...] *)
Definition with_card_name (business_name : string) (lead : Lead) : Lead :=
  if negb (Py.truthy (business_name_of lead)) && Py.truthy business_name
  then <["Business Name" := business_name]> lead else lead.

(** The body of the [for idx in range(total_cards)] loop.  Whatever raises
    inside it is caught by the loop's own handler, which reloads the page and
    continues; going back to the list after a card changes neither [leads]
    nor [processed_names]. *)
Definition visit_card (s : Session) (idx : nat) (r : Run) : Flow * Run :=
  match listing s idx with
  | Raise _ => (Continue, r)
  | Return business_cards =>
      match business_cards !! idx with
      | None => (Break, r)
      | Some card =>
          match link_label card with
          | None => (Continue, r)
          | Some aria_label =>
              let business_name := Py.or_empty aria_label in
              if bool_decide (business_name ∈ processed_names r) then (Continue, r)
              else
                let r := {| leads := leads r;
                            processed_names := processed_names r;
                            opened := opened r ++ [idx] |} in
                match on_click card with
                | ClickRaises => (Continue, r)
                | ViewRaises => (Continue, r)
                | Opens view =>
                    let lead := with_card_name business_name
                                  (extract_business_details view) in
                    if Py.truthy (business_name_of lead) then
                      (Continue,
                       {| leads := leads r ++ [lead];
                          processed_names := processed_names r ∪ {[business_name_of lead]};
                          opened := opened r |})
                    else (Continue, r)
                end
          end
      end
  end.

(** [for idx in range(n)] with its [break]: the run after the iterations
    [0 .. n-1], or after the one that broke out. *)
Fixpoint iterate_cards (s : Session) (n : nat) : Flow * Run :=
  match n with
  | O => (Continue, start)
  | S idx =>
      match iterate_cards s idx with
      | (Break, r) => (Break, r)
      | (Continue, r) => visit_card s idx r
      end
  end.

Definition search_query (keyword city country : string) : string :=
  keyword +:+ " in " +:+ city +:+ ", " +:+ country.

Definition maps_url (keyword city country : string) : string :=
  "https://www.google.com/maps/search/" +:+
  Py.replace " " "+" (search_query keyword city country).

(** The whole run; the state of the card loop is kept so that the clicks can
    be read off, [scrape_google_maps] below returns its [leads]. *)
Definition scrape_run (fuel : nat) (keyword city country : string)
    (max_results : Z) (s : Session) : option (Outcome Run) :=
  match launch s (maps_url keyword city country) with
  | Some e => Some (Raise e)
  | None =>
  match buttons s with
  | Some e => Some (Raise e)
  | None =>
  match results_page s with
  | Raise e => Some (Raise e)
  | Return dom =>
  match first_hit (fun selector => dom !! selector) container_selectors with
  | None => Some (Return start)
  | Some results_container =>
  match scroll_results_panel fuel (polls s) max_results with
  | None => None
  | Some (Raise e) => Some (Raise e)
  | Some (Return _) =>
  match loaded s with
  | Raise e => Some (Raise e)
  | Return business_cards =>
      let total_cards := Z.min (Z.of_nat (length business_cards)) max_results in
      if (total_cards =? 0)%Z then Some (Return start)
      else Some (Return (snd (iterate_cards s (Z.to_nat total_cards))))
  end end end end end end.

Definition scrape_google_maps (fuel : nat) (keyword city country : string)
    (max_results : Z) (s : Session) : option (Outcome (list Lead)) :=
  match scrape_run fuel keyword city country max_results s with
  | None => None
  | Some (Raise e) => Some (Raise e)
  | Some (Return r) => Some (Return (leads r))
  end.

(** ** [scrape_bulk_searches] *)

(** [lead['Search Query'] = ...] *)
Definition tag_query (search : gmap string string) (lead : Lead) : Lead :=
  <["Search Query" := search_query (field search "keyword") (field search "city")
                        (field search "country")]> lead.

(** One turn of the loop over [enumerate(searches)]: [try] the sub-run and
    extend [all_leads]; [except Exception: continue]. *)
Definition bulk_step (fuel : nat) (max_results : Z) (sessions : nat -> Session)
    (idx : nat) (search : gmap string string) (all_leads : list Lead)
  : option (Outcome (list Lead)) :=
  match scrape_google_maps fuel (field search "keyword") (field search "city")
          (field search "country") max_results (sessions idx) with
  | None => None
  | Some (Raise _) => Some (Return all_leads)
  | Some (Return found) => Some (Return (all_leads ++ map (tag_query search) found))
  end.

Fixpoint bulk_loop (fuel : nat) (max_results : Z) (sessions : nat -> Session)
    (idx : nat) (searches : list (gmap string string)) (all_leads : list Lead)
  : option (Outcome (list Lead)) :=
  match searches with
  | [] => Some (Return all_leads)
  | search :: rest =>
      match bulk_step fuel max_results sessions idx search all_leads with
      | None => None
      | Some (Raise e) => Some (Raise e)
      | Some (Return all_leads') =>
          bulk_loop fuel max_results sessions (S idx) rest all_leads'
      end
  end.

(** [sessions idx] is the browser session the [idx]-th sub-run gets. *)
Definition scrape_bulk_searches (fuel : nat) (searches : list (gmap string string))
    (max_results : Z) (sessions : nat -> Session) : option (Outcome (list Lead)) :=
  bulk_loop fuel max_results sessions 0 searches [].

(** ** [deduplicate_leads] *)

Definition dedup_key (lead : Lead) : string * string :=
  (Py.strip (Py.lower (field lead "Business Name")),
   Py.strip (Py.lower (field lead "Address"))).

(** The loop over [leads] with its [seen] set; [unique_leads] is what the
    remaining iterations append. *)
Fixpoint dedup_loop (seen : gset (string * string)) (leads : list Lead)
  : list Lead :=
  match leads with
  | [] => []
  | lead :: rest =>
      let key := dedup_key lead in
      if Py.truthy (fst key) && negb (bool_decide (key ∈ seen))
      then lead :: dedup_loop (seen ∪ {[key]}) rest
      else dedup_loop seen rest
  end.

Definition deduplicate_leads (leads : list Lead) : list Lead :=
  dedup_loop ∅ leads.

(** ** Python [float(str)] *)

Module PyFloat.

Definition prec : Z := 53.
Definition emax : Z := 1024.

(** The characters [float()] strips: the ASCII ones of [Py_ISSPACE], and
    the spaces above U+007F, which it first turns into ' '. *)
Definition is_space (c : ascii) : bool :=
  Py.between 9 13 c || (Py.code c =? 32)%N || (Py.code c =? 133)%N ||
  (Py.code c =? 160)%N.

Fixpoint lstrip (s : string) : string :=
  match s with
  | EmptyString => EmptyString
  | String c s' => if is_space c then lstrip s' else s
  end.

Fixpoint rstrip (s : string) : string :=
  match s with
  | EmptyString => EmptyString
  | String c s' =>
      let r := rstrip s' in
      if is_space c && negb (Py.truthy r) then EmptyString else String c r
  end.

(** [Py_TOLOWER] *)
Definition tolower (c : ascii) : ascii :=
  if Py.is_upper_az c then ascii_of_N (Py.code c + 32) else c.

Fixpoint lowercase (s : string) : string :=
  match s with
  | EmptyString => EmptyString
  | String c s' => String (tolower c) (lowercase s')
  end.

(** an optional sign: is it '-', and what follows *)
Definition sign (s : string) : bool * string :=
  match s with
  | String c s' =>
      if (Py.code c =? 45)%N then (true, s')
      else if (Py.code c =? 43)%N then (false, s')
      else (false, s)
  | EmptyString => (false, s)
  end.

(** after a digit: [(["_"] digit)*]; the digits read, and what follows *)
Fixpoint digit_run (s : string) : string * string :=
  match s with
  | String c s' =>
      if Py.is_digit c then
        let '(d, r) := digit_run s' in (String c d, r)
      else if (Py.code c =? 95)%N then
        match s' with
        | String c2 s'' =>
            if Py.is_digit c2 then
              let '(d, r) := digit_run s'' in (String c2 d, r)
            else (EmptyString, s)
        | EmptyString => (EmptyString, s)
        end
      else (EmptyString, s)
  | EmptyString => (EmptyString, EmptyString)
  end.

(** [digitpart ::= digit (["_"] digit)*] *)
Definition digitpart (s : string) : option (string * string) :=
  match s with
  | String c s' =>
      if Py.is_digit c then
        let '(d, r) := digit_run s' in Some (String c d, r)
      else None
  | EmptyString => None
  end.

Definition opt_digitpart (s : string) : string * string :=
  match digitpart s with Some p => p | None => (EmptyString, s) end.

(** [number ::= [digitpart] "." digitpart | digitpart ["."]]: the digits
    before the point, those after it, and what follows *)
Definition number (s : string) : option (string * string * string) :=
  let '(ip, r1) := opt_digitpart s in
  match r1 with
  | String c r2 =>
      if (Py.code c =? 46)%N then
        let '(fp, r3) := opt_digitpart r2 in
        if Py.truthy ip || Py.truthy fp then Some (ip, fp, r3) else None
      else if Py.truthy ip then Some (ip, EmptyString, r1) else None
  | EmptyString => if Py.truthy ip then Some (ip, EmptyString, r1) else None
  end.

(** value of a string of digits, most significant first *)
Fixpoint digits_value (acc : N) (d : string) : N :=
  match d with
  | EmptyString => acc
  | String c d' => digits_value (10 * acc + (Py.code c - 48))%N d'
  end.

(** [exponent ::= ("e" | "E") [sign] digitpart] *)
Definition exponent (s : string) : option (Z * string) :=
  match s with
  | String c s' =>
      if (Py.code c =? 101)%N || (Py.code c =? 69)%N then
        let '(neg, s'') := sign s' in
        match digitpart s'' with
        | Some (d, r) => Some (cond_Zopp neg (Z.of_N (digits_value 0 d)), r)
        | None => None
        end
      else None
  | EmptyString => None
  end.

(** the binary64 value nearest to [(-1)^neg * m * 10^e10], ties to even *)
Definition round_decimal (neg : bool) (m : N) (e10 : Z) : spec_float :=
  match m with
  | N0 => S754_zero neg
  | Npos p =>
      if (0 <=? e10)%Z
      then binary_normalize prec emax (cond_Zopp neg (Zpos p * 10 ^ e10)%Z) 0 neg
      else SFdiv prec emax (S754_finite neg p 0)
             (S754_finite false (Z.to_pos (10 ^ (- e10))) 0)
  end.

Definition finite_literal (neg : bool) (s : string) : option spec_float :=
  match number s with
  | None => None
  | Some (ip, fp, r) =>
      let m := digits_value 0 (ip +:+ fp) in
      let scale := Z.of_nat (String.length fp) in
      match r with
      | EmptyString => Some (round_decimal neg m (- scale))
      | _ =>
          match exponent r with
          | Some (e, EmptyString) => Some (round_decimal neg m (e - scale))
          | _ => None
          end
      end
  end.

(** [float(s)]: [None] is [ValueError] *)
Definition float (s : string) : option spec_float :=
  let '(neg, body) := sign (rstrip (lstrip s)) in
  let word := lowercase body in
  if bool_decide (word = "inf") || bool_decide (word = "infinity")
  then Some (S754_infinity neg)
  else if bool_decide (word = "nan") then Some S754_nan
  else finite_literal neg body.

(** [x >= y] *)
Definition ge (x y : spec_float) : bool := SFleb y x.

End PyFloat.

(** ** [filter_leads] *)

(** A pandas frame of leads: its column labels and its rows; a row has no
    entry under a column where the frame holds NaN.  The cells are text and
    the columns have dtype [object], as in the frames built from lead dicts
    and in their row selections; on a column of another dtype, such as a
    [float64] column that is NaN in every row, [.str] raises
    [AttributeError] in pandas, and such frames are outside this model. *)
Record DataFrame := {
  columns : list string;
  rows : list Lead
}.

(** [df.empty] *)
Definition df_empty (df : DataFrame) : bool :=
  match columns df, rows df with
  | [], _ | _, [] => true
  | _, _ => false
  end.

(** One row of [df[col].str.len() > 0] or [... == 0]; both are false on NaN. *)
Definition has_text (col : string) (want : bool) (row : Lead) : bool :=
  match row !! col with
  | Some v => if want then 0 <? String.length v else String.length v =? 0
  | None => false
  end.

Definition keep_rows (p : Lead -> bool) (df : DataFrame) : DataFrame :=
  {| columns := columns df; rows := List.filter p (rows df) |}.

(** [df[df[col].str.len() ...]]: [KeyError] when the frame has no such column *)
Definition select_text (col : string) (want : bool) (df : DataFrame)
  : Outcome DataFrame :=
  if bool_decide (col ∈ columns df) then Return (keep_rows (has_text col want) df)
  else Raise ("KeyError: " +:+ col).

(** [str(val)] of a cell *)
Definition cell_str (val : option string) : string :=
  match val with Some s => s | None => "nan" end.

Definition parse_rating (val : option string) : spec_float :=
  match PyFloat.float (Py.replace "," "." (cell_str val)) with
  | Some x => x
  | None => S754_zero false
  end.

Definition rating_ok (min_rating : spec_float) (row : Lead) : bool :=
  PyFloat.ge (parse_rating (row !! "Rating")) min_rating.

Definition and_then {A B : Type} (x : Outcome A) (f : A -> Outcome B) : Outcome B :=
  match x with Return a => f a | Raise e => Raise e end.

Notation "x >>= f" := (and_then x f) (at level 50, left associativity).

Definition when_set {A : Type} (arg : option A) (f : A -> DataFrame -> Outcome DataFrame)
    (df : DataFrame) : Outcome DataFrame :=
  match arg with Some a => f a df | None => Return df end.

Definition filter_leads (df : DataFrame)
    (has_phone has_website has_email has_whatsapp : option bool)
    (min_rating : option spec_float) : Outcome DataFrame :=
  if df_empty df then Return df
  else
    when_set has_phone (select_text "Phone") df >>=
    when_set has_website (select_text "Website") >>=
    when_set has_email (fun want d =>
      if bool_decide ("Email" ∈ columns d) then select_text "Email" want d
      else Return d) >>=
    when_set has_whatsapp (select_text "WhatsApp Link") >>=
    when_set min_rating (fun m d =>
      if bool_decide ("Rating" ∈ columns d) then Return (keep_rows (rating_ok m) d)
      else Return d).

(** ** The history store ([database.py]) *)

Record SearchHistory := {
  id : Z;
  keyword : string;
  city : string;
  country : string;
  leads_count : nat;
  leads_data : list Lead;
  created_at : Z
}.

(** The module's globals and the table behind them: [session_local] is
    [SessionLocal is not None]; [responsive] is false when opening a session
    or running a statement on it raises; [next_id] is the identifier the
    table gives the next row, [utcnow] the clock. *)
Record Database := {
  db_available : bool;
  session_local : bool;
  responsive : bool;
  search_history : list SearchHistory;
  next_id : Z;
  utcnow : Z
}.

Definition insert_row (db : Database) (row : SearchHistory) : Database :=
  {| db_available := db_available db;
     session_local := session_local db;
     responsive := responsive db;
     search_history := search_history db ++ [row];
     next_id := (next_id db + 1)%Z;
     utcnow := utcnow db |}.

(** The value returned ([None] is Python's [None]) and the store afterwards:
    the INSERT adds a row under the table's next identifier, and every path,
    the one through [session.commit()] included, ends in [return None]. *)
Definition save_search (db : Database) (keyword city country : string)
    (leads : list Lead) : option Z * Database :=
  if negb (db_available db) || negb (session_local db) then (None, db)
  else if responsive db then
    (None,
     insert_row db {| id := next_id db; keyword := keyword; city := city;
                      country := country; leads_count := length leads;
                      leads_data := leads; created_at := utcnow db |})
  else (None, db).

Definition load_search (db : Database) (search_id : Z) : option SearchHistory :=
  if negb (db_available db) || negb (session_local db) then None
  else if responsive db then
    List.find (fun row => (id row =? search_id)%Z) (search_history db)
  else None.

(** ** The host of a URL

    The claims about the website field speak of the host of a URL, which the
    scraper never computes (it compares prefixes).  For
    [scheme://host[:port][/path]] the host is what stands between "://" and
    the next ':', '/', '?' or '#'. *)

Fixpoint after_scheme (url : string) : option string :=
  match url with
  | EmptyString => None
  | String _ rest =>
      if String.prefix "://" url
      then Some (String.substring 3 (String.length url - 3) url)
      else after_scheme rest
  end.

Definition host_char (c : ascii) : bool :=
  negb (existsb (fun k => (Py.code c =? k)%N) [58; 47; 63; 35]%N).

Definition url_host (url : string) : string :=
  match after_scheme url with
  | Some rest => fst (Py.span host_char rest)
  | None => ""
  end.

Fixpoint ends_with (s suffix : string) : bool :=
  bool_decide (s = suffix) ||
  match s with
  | EmptyString => false
  | String _ s' => ends_with s' suffix
  end.

(** [host] is [domain] or one of its subdomains *)
Definition host_in_domain (domain host : string) : bool :=
  bool_decide (host = domain) || ends_with host ("." +:+ domain).

(** A detail view whose website link points at the mapping service over
    plain http. *)
Definition maps_link_view : DetailView :=
  {| current_url := Some "https://www.google.com/maps/place/Joe";
     elements :=
       {[ "h1.DUwDvf" := {| text := "Joe's Cafe"; attributes := ∅ |};
          "a[data-item-id='authority']" :=
            {| text := "Website";
               attributes := {[ "href" := "http://www.google.com/maps/place/Joe" ]} |} ]};
     body_text := None |}.

(** ** Colliding leads

    The collision of two leads in the words of the specification, to be
    compared with the key [deduplicate_leads] computes. *)

(** the text of [column], lowercased and trimmed *)
Definition trimmed_lower (column : string) (lead : Lead) : string :=
  Py.strip (Py.lower (field lead column)).

(** equal lowercased, trimmed names and equal lowercased, trimmed addresses *)
Definition collide (a b : Lead) : Prop :=
  trimmed_lower "Business Name" a = trimmed_lower "Business Name" b ∧
  trimmed_lower "Address" a = trimmed_lower "Address" b.

#[global] Instance collide_dec (a b : Lead) : Decision (collide a b).
Proof. unfold collide. apply _. Defined.

Definition joe_first : Lead :=
  {[ "Business Name" := " Joe's Cafe "; "Address" := "1 High St" ]}.

Definition joe_second : Lead :=
  {[ "Business Name" := "joe's cafe"; "Address" := "1 high st" ]}.

Definition greggs_first : Lead :=
  {[ "Business Name" := "Greggs"; "Address" := "2 Market St" ]}.

Definition greggs_second : Lead :=
  {[ "Business Name" := "Greggs"; "Address" := "9 Station Rd" ]}.

(** ** Sample sessions *)

(** Every card the run [r] has opened has a detail view that yields no
    name, or the name the card itself shows; nothing is asked of the cards
    the run skipped or never reached. *)
Definition names_agree (s : Session) (r : Run) : Prop :=
  ∀ idx cards card aria_label view,
    idx ∈ opened r →
    listing s idx = Return cards →
    cards !! idx = Some card →
    link_label card = Some aria_label →
    on_click card = Opens view →
    business_name_of (extract_business_details view) = "" ∨
    business_name_of (extract_business_details view) = Py.or_empty aria_label.

Definition returned_names (result : option (Outcome (list Lead))) : list string :=
  match result with
  | Some (Return found) => map business_name_of found
  | _ => []
  end.

Definition view_named (name : string) : DetailView :=
  {| current_url := Some "https://www.google.com/maps/place/1";
     elements := {[ "h1.DUwDvf" := {| text := name; attributes := ∅ |} ]};
     body_text := None |}.

(** a card labelled [label] whose detail view is headed [name] *)
Definition card_showing (label name : string) : Card :=
  {| link_label := Some (Some label); on_click := Opens (view_named name) |}.

Definition feed_page : gmap string WebElement :=
  {[ "div[role='feed']" := {| text := ""; attributes := ∅ |} ]}.

(** a session in which every query finds the same cards *)
Definition session_of (cards : list Card) : Session :=
  {| launch := fun _ => None;
     buttons := None;
     results_page := Return feed_page;
     polls := fun _ => Return cards;
     loaded := Return cards;
     listing := fun _ => Return cards |}.

(** two cards labelled alike whose detail views are headed by another name *)
Definition twin_session : Session :=
  session_of [card_showing "Cafe Uno" "Joe's Cafe";
              card_showing "Cafe Uno" "Joe's Cafe"].

(** three cards, the last labelled like the first *)
Definition repeat_session : Session :=
  session_of [card_showing "Joe's Cafe" "Joe's Cafe";
              card_showing "Bun House" "";
              card_showing "Joe's Cafe" "Joe's Cafe"].

(** three cards: the second is labelled like the first and headed by another
    name, the third is headed by a name that is not its label *)
Definition shadowed_session : Session :=
  session_of [card_showing "A" "A"; card_showing "A" "Z"; card_showing "Q" "R"].

(** ** When the scroller stops

    Iteration [j] of the scroller stalls when its count equals the count of
    the iteration before it (0 before the first).  The scroller stops at
    the first iteration whose count reaches the target or which ends twenty
    stalls in a row. *)

Definition previous_count (items : nat -> list Card) (k : nat) : nat :=
  match k with
  | O => 0
  | S j => length (items j)
  end.

Definition stall (items : nat -> list Card) (j : nat) : bool :=
  length (items j) =? previous_count items j.

Definition stalled_at (items : nat -> list Card) (n : nat) : bool :=
  (19 <=? n) && forallb (stall items) (seq (n - 19) 20).

Definition stops_at (items : nat -> list Card) (max_results : Z) (n : nat) : bool :=
  (max_results <=? Z.of_nat (length (items n)))%Z || stalled_at items n.

(** the scroller's queries when none of them raises *)
Definition always_found (items : nat -> list Card) : nat -> Outcome (list Card) :=
  fun k => Return (items k).

(** The state at the head of iteration [k]: the last [a] iterations stalled,
    and the one before them, if any, did not. *)
Definition at_head (items : nat -> list Card) (k a : nat) : Prop :=
  a ≤ k ∧
  (∀ j, k - a ≤ j < k → stall items j = true) ∧
  (a < k → stall items (k - a - 1) = false).

(** a result list that stays at three cards *)
Definition three_cards : list Card :=
  [card_showing "A" "A"; card_showing "B" "B"; card_showing "C" "C"].

(** ** Sub-runs of a bulk run *)

(** what the sub-run of [search], the [idx]-th of the batch, adds to
    [all_leads]: its leads, tagged, and nothing when it raises *)
Definition tagged_leads (fuel : nat) (max_results : Z) (sessions : nat -> Session)
    (idx : nat) (search : gmap string string) : list Lead :=
  match scrape_google_maps fuel (field search "keyword") (field search "city")
          (field search "country") max_results (sessions idx) with
  | Some (Return found) => map (tag_query search) found
  | _ => []
  end.

(** the sub-run ends within [fuel] scroll iterations *)
Definition sub_run_ends (fuel : nat) (max_results : Z) (sessions : nat -> Session)
    (idx : nat) (search : gmap string string) : Prop :=
  scrape_google_maps fuel (field search "keyword") (field search "city")
    (field search "country") max_results (sessions idx) ≠ None.

Definition five_cards : list Card :=
  [card_showing "A" "A"; card_showing "B" "B"; card_showing "C" "C";
   card_showing "D" "D"; card_showing "E" "E"].

(** a session whose container lookup raises *)
Definition broken_session : Session :=
  {| launch := fun _ => None;
     buttons := None;
     results_page := Raise "WebDriverException";
     polls := fun _ => Return [];
     loaded := Return [];
     listing := fun _ => Return [] |}.

Definition two_searches : list (gmap string string) :=
  [ {[ "keyword" := "Bakery"; "city" := "Leeds"; "country" := "UK" ]};
    {[ "keyword" := "Cafe"; "city" := "York"; "country" := "UK" ]} ].

Definition two_sessions (idx : nat) : Session :=
  match idx with
  | O => session_of five_cards
  | S _ => broken_session
  end.

(** ** Ratings *)

Fixpoint all_chars (p : ascii -> bool) (s : string) : bool :=
  match s with
  | EmptyString => true
  | String c s' => p c && all_chars p s'
  end.

(** a non-empty string of digits *)
Definition is_numeral (s : string) : bool :=
  Py.truthy s && all_chars Py.is_digit s.

(** the characters of [a.b] for numerals [a] and [b] *)
Definition plain (c : ascii) : bool :=
  Py.is_digit c || (Py.code c =? 46)%N.

(** what may follow a numeral without being read into it *)
Definition ends_numeral (rest : string) : bool :=
  match rest with
  | EmptyString => true
  | String c _ => negb (Py.is_digit c) && negb (Py.code c =? 95)%N
  end.

(** the float [4.0] *)
Definition four : spec_float :=
  binary_normalize PyFloat.prec PyFloat.emax 4 0 false.

(** [0 < x] on floats *)
Definition positive (x : spec_float) : bool := SFltb (S754_zero false) x.

Definition rated (name rating : string) : Lead :=
  <["Rating" := rating]> (<["Business Name" := name]> empty_lead).

Definition lead_columns : list string :=
  ["Business Name"; "Address"; "Phone"; "WhatsApp Link"; "Website"; "Email";
   "Google Maps Link"; "Rating"; "Reviews"].

Definition rated_frame : DataFrame :=
  {| columns := lead_columns;
     rows := [rated "Joe's Cafe" "4,5"; rated "Bun House" "N/A";
              rated "Crumbs" "3.9"; rated "Loaf" "4.0"] |}.

(** [pd.DataFrame()] *)
Definition no_frame : DataFrame := {| columns := []; rows := [] |}.

(** ** A sample store *)

(** an available, responsive store with an empty table *)
Definition fresh_store : Database :=
  {| db_available := true;
     session_local := true;
     responsive := true;
     search_history := [];
     next_id := 1;
     utcnow := 1700000000 |}.

(** ** [extract_phone_number] *)

(** [re.search]: the match at the leftmost position where [pattern] matches *)
Fixpoint re_search (pattern : string -> option string) (s : string)
  : option string :=
  match pattern s with
  | Some m => Some m
  | None =>
      match s with
      | String _ s' => re_search pattern s'
      | EmptyString => None
      end
  end.

(** [[\d\s\-\(\)]] *)
Definition phone_char (c : ascii) : bool :=
  Py.is_digit c || Py.is_space c ||
  existsb (fun k => (Py.code c =? k)%N) [45; 40; 41]%N.

(** [[\s\-]] *)
Definition phone_sep (c : ascii) : bool :=
  Py.is_space c || (Py.code c =? 45)%N.

(** [\+?[\d\s\-\(\)]{10,}] at the head of [s]: nothing follows the
    class, so it takes the whole run; without the '+' the class would have to
    match it, which it does not. *)
Definition phone_pattern_1 (s : string) : option string :=
  match s with
  | String c s' =>
      if (Py.code c =? 43)%N then
        let run := fst (Py.span phone_char s') in
        if 10 <=? String.length run then Some (String c run) else None
      else
        let run := fst (Py.span phone_char s) in
        if 10 <=? String.length run then Some run else None
  | EmptyString => None
  end.

(** [\d{n}] at the head of [s]: the digits and what follows *)
Fixpoint take_digits (n : nat) (s : string) : option (string * string) :=
  match n with
  | O => Some (EmptyString, s)
  | S n' =>
      match s with
      | String c s' =>
          if Py.is_digit c then
            match take_digits n' s' with
            | Some (d, r) => Some (String c d, r)
            | None => None
            end
          else None
      | EmptyString => None
      end
  end.

(** an optional character of a class at the head of [s]; what follows it has
    to start with a digit or ')', which the classes used here exclude, so a
    character taken is never given back *)
Definition take_optional (p : ascii -> bool) (s : string) : string * string :=
  match s with
  | String c s' => if p c then (String c EmptyString, s') else (EmptyString, s)
  | EmptyString => (EmptyString, s)
  end.

(** one given character at the head of [s] *)
Definition take_char (k : N) (s : string) : option (string * string) :=
  match s with
  | String c s' => if (Py.code c =? k)%N then Some (String c EmptyString, s') else None
  | EmptyString => None
  end.

(** [\d{3}[\s\-]?\d{3}[\s\-]?\d{4}] at the head of [s] *)
Definition phone_pattern_2 (s : string) : option string :=
  match take_digits 3 s with
  | None => None
  | Some (a, r1) =>
      let '(x, r2) := take_optional phone_sep r1 in
      match take_digits 3 r2 with
      | None => None
      | Some (b, r3) =>
          let '(y, r4) := take_optional phone_sep r3 in
          match take_digits 4 r4 with
          | None => None
          | Some (d, _) => Some (a +:+ x +:+ b +:+ y +:+ d)
          end
      end
  end.

(** [\(\d{3}\)\s?\d{3}[\s\-]?\d{4}] at the head of [s] *)
Definition phone_pattern_3 (s : string) : option string :=
  match take_char 40 s with
  | None => None
  | Some (o, r0) =>
  match take_digits 3 r0 with
  | None => None
  | Some (a, r1) =>
  match take_char 41 r1 with
  | None => None
  | Some (c, r2) =>
      let '(x, r3) := take_optional Py.is_space r2 in
      match take_digits 3 r3 with
      | None => None
      | Some (b, r4) =>
          let '(y, r5) := take_optional phone_sep r4 in
          match take_digits 4 r5 with
          | None => None
          | Some (d, _) => Some (o +:+ a +:+ c +:+ x +:+ b +:+ y +:+ d)
          end
      end
  end end end.

Definition phone_patterns : list (string -> option string) :=
  [phone_pattern_1; phone_pattern_2; phone_pattern_3].

Definition extract_phone_number (text : string) : string :=
  if negb (Py.truthy text) then ""
  else
    match first_hit (fun pattern => re_search pattern text) phone_patterns with
    | Some m => Py.strip m
    | None => ""
    end.

(** ** Shapes of extracted text *)

(** a non-empty string of characters of one class *)
Definition in_class (p : ascii -> bool) (s : string) : bool :=
  Py.truthy s && all_chars p s.

(** [local@domain.tld]: the strings the email pattern matches *)
Definition email_shape (m : string) : Prop :=
  ∃ l d t,
    m = l +:+ "@" +:+ d +:+ "." +:+ t ∧
    in_class email_local_char l = true ∧
    in_class email_domain_char d = true ∧
    all_chars Py.is_alpha_az t = true ∧ 2 ≤ String.length t.

(** [m] occurs in [s] *)
Definition occurs_in (m s : string) : Prop :=
  ∃ before after, s = before +:+ m +:+ after.

Definition not_at_sign (c : ascii) : bool := negb (Py.code c =? 64)%N.

Definition phone_or_plus (c : ascii) : bool :=
  phone_char c || (Py.code c =? 43)%N.

Fixpoint map_chars (f : ascii -> ascii) (s : string) : string :=
  match s with
  | EmptyString => EmptyString
  | String c s' => String (f c) (map_chars f s')
  end.

Definition plus_for_space (c : ascii) : ascii :=
  if (Py.code c =? 32)%N then "+"%char else c.

Definition not_blank (c : ascii) : bool := negb (Py.code c =? 32)%N.

(** ** The keys of a lead *)

(** the keys of the dict [extract_business_details] builds *)
Definition lead_keys : gset string := list_to_set lead_columns.

(** ** More sample data *)

(** a result list that shows one card and two cards in turn *)
Definition flickering (k : nat) : list Card :=
  if Nat.even k then [card_showing "A" "A"]
  else [card_showing "A" "A"; card_showing "B" "B"].

(** a session whose result count never settles *)
Definition restless_session : Session :=
  {| launch := fun _ => None;
     buttons := None;
     results_page := Return feed_page;
     polls := always_found flickering;
     loaded := Return (flickering 0);
     listing := fun _ => Return (flickering 0) |}.

(** the first sub-run raises at the container lookup, the second never
    stops scrolling *)
Definition stuck_sessions (idx : nat) : Session :=
  match idx with
  | O => broken_session
  | S _ => restless_session
  end.

(** the lead a run records for a card: that of its detail view, named after
    the card where the view shows no name *)
Definition lead_of_card (aria_label : option string) (view : DetailView) : Lead :=
  with_card_name (Py.or_empty aria_label) (extract_business_details view).

(** [opened] lists indices in rising order *)
Definition rising (l : list nat) : Prop :=
  ∀ i j a b, l !! i = Some a → l !! j = Some b → i < j → a < b.

(** ** Saving a bulk run ([app.py]) *)

(** [needle in hay] on strings *)
Fixpoint str_contains (needle hay : string) : bool :=
  String.prefix needle hay ||
  match hay with
  | EmptyString => false
  | String _ hay' => str_contains needle hay'
  end.

(** [[s for s in searches if s.get('keyword') and s.get('city') and
    s.get('country')]] *)
Definition valid_searches (searches : list (gmap string string))
  : list (gmap string string) :=
  List.filter
    (fun s => Py.truthy_opt (s !! "keyword") && Py.truthy_opt (s !! "city") &&
              Py.truthy_opt (s !! "country"))
    searches.

(** [[l for l in leads
      if search['keyword'].lower() in l.get('Search Query', '').lower()]]:
    the leads saved under [search]; the searches it is applied to are valid
    ones, which have the key *)
Definition search_leads (search : gmap string string) (leads : list Lead)
  : list Lead :=
  List.filter
    (fun l => str_contains (Py.lower (field search "keyword"))
                (Py.lower (field l "Search Query")))
    leads.

(** two searches, the keyword of the first in the city of the second *)
Definition cafe_search : gmap string string :=
  {[ "keyword" := "Cafe"; "city" := "York"; "country" := "UK" ]}.

Definition row_search : gmap string string :=
  {[ "keyword" := "Bakery"; "city" := "Cafe Row"; "country" := "UK" ]}.

(** a lead the search [row_search] found *)
Definition row_lead : Lead :=
  tag_query row_search (lead_of_card (Some "A") (view_named "A")).

(** ** Keys seen by the dedup loop *)

(** the lead has a name left after lowercasing and trimming *)
Definition named (lead : Lead) : bool := Py.truthy (fst (dedup_key lead)).

(** [seen] after the loop has gone through [leads] *)
Fixpoint seen_after (seen : gset (string * string)) (leads : list Lead)
  : gset (string * string) :=
  match leads with
  | [] => seen
  | lead :: rest =>
      let key := dedup_key lead in
      if Py.truthy (fst key) && negb (bool_decide (key ∈ seen))
      then seen_after (seen ∪ {[key]}) rest
      else seen_after seen rest
  end.

(** ** Sample results *)

#[global] Instance Outcome_eq_dec {A : Type} `{EqDecision A} : EqDecision (Outcome A).
Proof. solve_decision. Defined.

(** what the run over [repeat_session] returns *)
Definition repeat_leads : list Lead :=
  leads (snd (iterate_cards repeat_session 3)).

(** the lead of the second card of [repeat_session] *)
Definition bun_house : Lead := lead_of_card (Some "Bun House") (view_named "").

Definition bakery_search : gmap string string :=
  {[ "keyword" := "Bakery"; "city" := "Leeds"; "country" := "UK" ]}.

(** what the bulk run over [two_searches] returns *)
Definition bakery_leads : list Lead :=
  map (tag_query bakery_search)
    (leads (snd (iterate_cards (session_of five_cards) 5))).


(** * Properties *)

(** ** Strings *)

Lemma truthy_true_iff (s : string) : Py.truthy s = true ↔ s ≠ "".
Proof. destruct s; simpl; split; intros; congruence. Qed.

Lemma truthy_false_iff (s : string) : Py.truthy s = false ↔ s = "".
Proof. destruct s; simpl; split; intros; congruence. Qed.

Lemma filter_chars_list (keep : ascii -> bool) (s : string) :
  Py.filter_chars keep s =
  string_of_list_ascii (List.filter keep (list_ascii_of_string s)).
Proof.
  induction s as [|c s IH]; simpl; [reflexivity|].
  destruct (keep c); simpl; rewrite IH; reflexivity.
Qed.

Lemma filter_chars_empty_iff (keep : ascii -> bool) (s : string) :
  Py.filter_chars keep s = "" ↔
  ∀ c, c ∈ list_ascii_of_string s → keep c = false.
Proof.
  induction s as [|c s IH]; simpl.
  - split; [intros _ c Hc; inversion Hc | reflexivity].
  - destruct (keep c) eqn:Hk.
    + split; [discriminate|].
      intros H. specialize (H c (list_elem_of_here _ _)). congruence.
    + rewrite IH. split.
      * intros H d [->|Hd]%elem_of_cons; auto.
      * intros H d Hd. apply H. by apply list_elem_of_further.
Qed.

Lemma append_nonempty (a b : string) : a ≠ "" → a +:+ b ≠ "".
Proof. destruct a as [|c a]; [done|]. intros _. cbn. discriminate. Qed.

(** ** The lead of a detail view *)

Lemma field_set_if_ne (k k' : string) (v : option string) (lead : Lead) :
  k ≠ k' → field (set_if k v lead) k' = field lead k'.
Proof.
  intros Hne. unfold field, set_if. destruct v; [|reflexivity].
  by rewrite lookup_insert_ne.
Qed.

Lemma field_set_if_eq (k : string) (v : option string) (lead : Lead) :
  field (set_if k v lead) k = default (field lead k) v.
Proof.
  unfold field, set_if. destruct v; simpl; [|reflexivity].
  by rewrite lookup_insert_eq.
Qed.

Lemma field_set_phone_other (k : string) (v : option string) (lead : Lead) :
  k ≠ "Phone" → k ≠ "WhatsApp Link" →
  field (set_phone v lead) k = field lead k.
Proof.
  intros H1 H2. unfold field, set_phone. destruct v; [|reflexivity].
  rewrite !lookup_insert_ne; auto.
Qed.

Lemma field_set_phone_phone (v : option string) (lead : Lead) :
  field (set_phone v lead) "Phone" = default (field lead "Phone") v.
Proof.
  unfold field, set_phone. destruct v; simpl; [|reflexivity].
  rewrite lookup_insert_ne by discriminate. by rewrite lookup_insert_eq.
Qed.

Lemma field_set_phone_link (v : option string) (lead : Lead) :
  field (set_phone v lead) "WhatsApp Link" =
  match v with
  | Some p => create_whatsapp_link p
  | None => field lead "WhatsApp Link"
  end.
Proof.
  unfold field, set_phone. destruct v; simpl; [|reflexivity].
  by rewrite lookup_insert_eq.
Qed.

Lemma extract_phone_field (driver : DetailView) :
  field (extract_business_details driver) "Phone" =
  default "" (first_hit (try_labelled "Phone: " driver) phone_selectors).
Proof.
  unfold extract_business_details.
  rewrite !field_set_if_ne by discriminate.
  rewrite field_set_phone_phone.
  rewrite !field_set_if_ne by discriminate. reflexivity.
Qed.

Lemma extract_whatsapp_field (driver : DetailView) :
  field (extract_business_details driver) "WhatsApp Link" =
  create_whatsapp_link (field (extract_business_details driver) "Phone").
Proof.
  rewrite extract_phone_field.
  unfold extract_business_details.
  rewrite !field_set_if_ne by discriminate.
  rewrite field_set_phone_link.
  destruct (first_hit _ phone_selectors); simpl; [reflexivity|].
  rewrite !field_set_if_ne by discriminate. reflexivity.
Qed.

(** ** C1: the WhatsApp link *)

(** C1, as stated, fails: the phone text "N/A" is not empty, yet no digit or
    '+' is left of it and the link is empty. *)
Lemma whatsapp_link_empty_for_nonempty_phone :
  ¬ (create_whatsapp_link "N/A" = "" ↔ "N/A" = "").
Proof. intros [H _]. specialize (H eq_refl). discriminate. Qed.

(** C1, amended: the link is empty exactly when the phone holds no digit and
    no '+' (the empty phone included); otherwise it is "https://wa.me/"
    followed by the phone with every character other than digits and '+'
    removed.  The lead of every detail view carries the link of its phone. *)
Theorem create_whatsapp_link_spec (phone : string) :
  (create_whatsapp_link phone = "" ↔
     ∀ c, c ∈ list_ascii_of_string phone → keep_digit_plus c = false) ∧
  (create_whatsapp_link phone ≠ "" →
     create_whatsapp_link phone =
     "https://wa.me/" +:+
     string_of_list_ascii (List.filter keep_digit_plus (list_ascii_of_string phone))) ∧
  (phone = "" → create_whatsapp_link phone = "") ∧
  (∀ driver : DetailView,
     field (extract_business_details driver) "WhatsApp Link" =
     create_whatsapp_link (field (extract_business_details driver) "Phone")).
Proof.
  split; [|split; [|split]].
  - rewrite <- filter_chars_empty_iff. unfold create_whatsapp_link, clean_phone.
    destruct (Py.truthy phone) eqn:Hp; simpl.
    + destruct (Py.truthy (Py.filter_chars keep_digit_plus phone)) eqn:Hc.
      * apply truthy_true_iff in Hc. split; [|congruence].
        intros H. exfalso. revert H. by apply append_nonempty.
      * apply truthy_false_iff in Hc. by rewrite Hc.
    + apply truthy_false_iff in Hp. subst phone. done.
  - unfold create_whatsapp_link, clean_phone.
    destruct (Py.truthy phone); simpl; [|done].
    destruct (Py.truthy _); [|done].
    intros _. by rewrite filter_chars_list.
  - by intros ->.
  - apply extract_whatsapp_field.
Qed.

(** the link of a phone with digits, and of the empty phone *)
Lemma create_whatsapp_link_spec_witness :
  create_whatsapp_link "+44 (0)113 496-0000" = "https://wa.me/+4401134960000" ∧
  create_whatsapp_link "" = "".
Proof.
  destruct (create_whatsapp_link_spec "+44 (0)113 496-0000") as (_ & Hlink & _).
  destruct (create_whatsapp_link_spec "") as (_ & _ & Hempty & _).
  split.
  - rewrite Hlink; [reflexivity | vm_compute; discriminate].
  - apply Hempty. reflexivity.
Defined.

(** ** C3: the website field *)

Lemma first_hit_Some {A B : Type} (f : A -> option B) (xs : list A) (b : B) :
  first_hit f xs = Some b → ∃ x, x ∈ xs ∧ f x = Some b.
Proof.
  induction xs as [|x xs IH]; simpl; [discriminate|].
  destruct (f x) as [b'|] eqn:Hx.
  - intros [= ->]. exists x. split; [apply list_elem_of_here | done].
  - intros H. destruct (IH H) as (y & Hy & Hfy).
    exists y. split; [by apply list_elem_of_further | done].
Qed.

Lemma extract_website_field (driver : DetailView) :
  field (extract_business_details driver) "Website" =
  default "" (first_hit (try_website driver) website_selectors).
Proof.
  unfold extract_business_details.
  rewrite !field_set_if_ne by discriminate.
  rewrite field_set_if_eq.
  rewrite field_set_phone_other by discriminate.
  rewrite !field_set_if_ne by discriminate. reflexivity.
Qed.

Lemma try_website_Some (driver : DetailView) (selector href : string) :
  try_website driver selector = Some href →
  ∃ elem, safe_find_element driver selector = Some elem ∧
          get_attribute elem "href" = Some href ∧
          href ≠ "" ∧ Py.startswith href "https://www.google.com" = false.
Proof.
  unfold try_website.
  destruct (safe_find_element driver selector) as [elem|]; [|discriminate].
  destruct (get_attribute elem "href") as [h|] eqn:Hh; [|discriminate].
  destruct (Py.truthy h) eqn:Ht; simpl; [|discriminate].
  destruct (Py.startswith h _) eqn:Hs; simpl; [discriminate|].
  intros [= <-]. exists elem. repeat split; try done.
  by apply truthy_true_iff.
Qed.

(** C3, as stated, fails: a website link to the mapping service over plain
    http is kept, and its host lies in the service's domain. *)
Lemma website_on_mapping_domain :
  ¬ (field (extract_business_details maps_link_view) "Website" = "" ∨
     host_in_domain "google.com"
       (url_host (field (extract_business_details maps_link_view) "Website")) = false).
Proof. vm_compute. intros [H|H]; discriminate H. Qed.

(** C3, amended: the website field never starts with
    "https://www.google.com": it is empty, or it is the href of an
    element that one of the website selectors finds, and does not start with
    that prefix. *)
Theorem website_never_maps_prefix (driver : DetailView) :
  let website := field (extract_business_details driver) "Website" in
  website = "" ∨
  (Py.startswith website "https://www.google.com" = false ∧
   ∃ selector elem,
     selector ∈ website_selectors ∧
     safe_find_element driver selector = Some elem ∧
     get_attribute elem "href" = Some website).
Proof.
  cbv zeta. rewrite extract_website_field.
  destruct (first_hit (try_website driver) website_selectors) as [href|] eqn:Hhit;
    simpl; [right | by left].
  apply first_hit_Some in Hhit as (selector & Hin & Htry).
  apply try_website_Some in Htry as (elem & Hfind & Hattr & _ & Hpre).
  split; [done|]. by exists selector, elem.
Qed.

(** ** Trimming and lowercasing *)

Lemma is_space_lower_char (c : ascii) :
  Py.is_space (Py.lower_char c) = Py.is_space c.
Proof. destruct c as [[] [] [] [] [] [] [] []]; reflexivity. Qed.

Lemma truthy_lower (s : string) : Py.truthy (Py.lower s) = Py.truthy s.
Proof. by destruct s. Qed.

Lemma lstrip_lower (s : string) : Py.lstrip (Py.lower s) = Py.lower (Py.lstrip s).
Proof.
  induction s as [|c s IH]; simpl; [reflexivity|].
  rewrite is_space_lower_char. by destruct (Py.is_space c).
Qed.

Lemma rstrip_lower (s : string) : Py.rstrip (Py.lower s) = Py.lower (Py.rstrip s).
Proof.
  induction s as [|c s IH]; simpl; [reflexivity|].
  rewrite is_space_lower_char, IH, truthy_lower.
  by destruct (Py.is_space c && negb (Py.truthy (Py.rstrip s))).
Qed.

Lemma strip_lower (s : string) : Py.strip (Py.lower s) = Py.lower (Py.strip s).
Proof. unfold Py.strip. by rewrite lstrip_lower, rstrip_lower. Qed.

(** ** C5: post-processing deduplication *)

Section Dedup.

Implicit Types (seen : gset (string * string)) (lead : Lead) (L : list Lead).

Lemma dedup_loop_sublist seen L : dedup_loop seen L `sublist_of` L.
Proof.
  revert seen. induction L as [|lead L IH]; intros seen; cbn [dedup_loop];
    [constructor|].
  destruct (Py.truthy _ && negb _).
  - by apply sublist_skip.
  - by apply sublist_cons.
Qed.

Lemma dedup_loop_idem seen L :
  dedup_loop seen (dedup_loop seen L) = dedup_loop seen L.
Proof.
  revert seen. induction L as [|lead L IH]; intros seen; cbn [dedup_loop];
    [reflexivity|].
  destruct (Py.truthy _ && negb _) eqn:Hkeep; [|apply IH].
  cbn [dedup_loop]. rewrite Hkeep. f_equal. apply IH.
Qed.

(** the keys the loop has in [seen] after a list *)
Lemma dedup_loop_snoc seen L lead :
  dedup_loop seen (L ++ [lead]) =
  dedup_loop seen L ++
  (if Py.truthy (fst (dedup_key lead)) &&
      negb (bool_decide (dedup_key lead ∈ seen)) &&
      negb (bool_decide (dedup_key lead ∈ map dedup_key L))
   then [lead] else []).
Proof.
  revert seen. induction L as [|x L IH]; intros seen; cbn [dedup_loop app map].
  - rewrite (bool_decide_eq_false_2 (_ ∈ [])) by (intros H; inversion H).
    rewrite andb_true_r. by destruct (_ && _).
  - destruct (Py.truthy (dedup_key x).1 && negb (bool_decide (dedup_key x ∈ seen)))
      eqn:Hx.
    + cbn [app]. rewrite IH. do 2 f_equal.
      apply andb_true_iff in Hx as [Hx1 Hx2].
      apply negb_true_iff, bool_decide_eq_false in Hx2.
      destruct (Py.truthy (dedup_key lead).1); cbn [andb]; [|reflexivity].
      destruct (decide (dedup_key lead = dedup_key x)) as [Heq|Hne].
      * rewrite (bool_decide_eq_true_2 (dedup_key lead ∈ seen ∪ _))
          by (apply elem_of_union; right; by apply elem_of_singleton).
        rewrite (bool_decide_eq_true_2 (dedup_key lead ∈ _ :: _))
          by (rewrite Heq; apply list_elem_of_here).
        cbn [negb andb]. by rewrite andb_false_r.
      * assert (dedup_key lead ∈ seen ∪ {[dedup_key x]} ↔ dedup_key lead ∈ seen)
          as Hseen by (rewrite elem_of_union, elem_of_singleton; tauto).
        assert (dedup_key lead ∈ dedup_key x :: map dedup_key L ↔
                dedup_key lead ∈ map dedup_key L)
          as Hearlier by (rewrite elem_of_cons; tauto).
        by rewrite (bool_decide_ext _ _ Hseen), (bool_decide_ext _ _ Hearlier).
    + rewrite IH. do 2 f_equal.
      destruct (Py.truthy (dedup_key lead).1) eqn:Hl; cbn [andb]; [|reflexivity].
      destruct (bool_decide (dedup_key lead ∈ seen)) eqn:Hs; cbn [negb andb];
        [reflexivity|].
      rewrite (bool_decide_ext (dedup_key lead ∈ dedup_key x :: map dedup_key L)
                 (dedup_key lead ∈ map dedup_key L)); [reflexivity|].
      rewrite elem_of_cons.
      split; [|by right]. intros [Heq|Hin]; [|done].
      exfalso. rewrite <- Heq, Hl, Hs in Hx. discriminate.
Qed.

Lemma dedup_loop_named seen L lead :
  lead ∈ dedup_loop seen L → Py.truthy (fst (dedup_key lead)) = true.
Proof.
  revert seen. induction L as [|x L IH]; intros seen; cbn [dedup_loop].
  - intros H. inversion H.
  - destruct (Py.truthy (dedup_key x).1 && negb _) eqn:Hx; [|apply IH].
    intros [->|Hin]%elem_of_cons; [|by eapply IH].
    by apply andb_true_iff in Hx as [Hx _].
Qed.

Lemma dedup_loop_fresh seen L lead :
  lead ∈ dedup_loop seen L → dedup_key lead ∉ seen.
Proof.
  revert seen. induction L as [|x L IH]; intros seen; cbn [dedup_loop].
  - intros H. inversion H.
  - destruct (Py.truthy (dedup_key x).1 && negb _) eqn:Hx; [|apply IH].
    apply andb_true_iff in Hx as [_ Hx].
    apply negb_true_iff, bool_decide_eq_false in Hx.
    intros [->|Hin]%elem_of_cons; [done|].
    apply IH in Hin. intros Hseen. apply Hin, elem_of_union. by left.
Qed.

Lemma dedup_loop_keys_NoDup seen L : NoDup (map dedup_key (dedup_loop seen L)).
Proof.
  revert seen. induction L as [|x L IH]; intros seen; cbn [dedup_loop].
  - constructor.
  - destruct (Py.truthy (dedup_key x).1 && negb _); [|apply IH].
    cbn [map]. apply NoDup_cons. split; [|apply IH].
    intros (y & Hkey & Hin)%list_elem_of_fmap.
    apply dedup_loop_fresh in Hin. apply Hin, elem_of_union. right.
    by apply elem_of_singleton.
Qed.

Lemma dedup_loop_represented seen L lead :
  lead ∈ L → Py.truthy (fst (dedup_key lead)) = true → dedup_key lead ∉ seen →
  dedup_key lead ∈ map dedup_key (dedup_loop seen L).
Proof.
  revert seen. induction L as [|x L IH]; intros seen Hin Hname Hnew;
    [inversion Hin|]. cbn [dedup_loop].
  destruct (Py.truthy (dedup_key x).1 && negb (bool_decide (dedup_key x ∈ seen)))
    eqn:Hx.
  - cbn [map]. destruct (decide (dedup_key lead = dedup_key x)) as [->|Hne];
      [apply list_elem_of_here|].
    apply list_elem_of_further. apply elem_of_cons in Hin as [->|Hin]; [done|].
    apply IH; [done..|]. rewrite elem_of_union, elem_of_singleton. tauto.
  - apply elem_of_cons in Hin as [->|Hin]; [|by apply IH].
    exfalso. rewrite Hname, (bool_decide_eq_false_2 _ Hnew) in Hx. discriminate.
Qed.

End Dedup.

Example dedup_joes_cafe :
  deduplicate_leads
    [ {[ "Business Name" := " Joe's Cafe "; "Address" := "1 High St" ]};
      {[ "Business Name" := "joe's cafe"; "Address" := "1 high st" ]} ]
  = [ {[ "Business Name" := " Joe's Cafe "; "Address" := "1 High St" ]} ].
Proof. vm_compute. reflexivity. Qed.

Example dedup_greggs_two_addresses :
  deduplicate_leads [greggs_first; greggs_second] = [greggs_first; greggs_second].
Proof. vm_compute. reflexivity. Qed.

(** the key of the code is equal on two leads exactly when they collide *)
Lemma dedup_key_collide (a b : Lead) : dedup_key a = dedup_key b ↔ collide a b.
Proof.
  unfold dedup_key, collide, trimmed_lower. split.
  - by intros [= -> ->].
  - by intros [-> ->].
Qed.

Lemma dedup_key_seen (lead : Lead) (L : list Lead) :
  dedup_key lead ∈ map dedup_key L ↔ Exists (collide lead) L.
Proof.
  rewrite Exists_exists. split.
  - intros (x & Hx & Hin)%list_elem_of_fmap. exists x.
    split; [done | by apply dedup_key_collide].
  - intros (x & Hin & Hx). apply list_elem_of_fmap. exists x.
    split; [by apply dedup_key_collide | done].
Qed.

(** C5: [deduplicate_leads] is idempotent and its output is a subsequence
    of its input; two leads collide when their lowercased, trimmed names
    are equal and their lowercased, trimmed addresses are equal, and a lead
    is emitted exactly when its lowercased, trimmed name is not empty and
    it collides with no earlier lead of the input, so the first occurrence
    wins: no two emitted leads collide, and every lead of the input that
    has a name collides with an emitted one. *)
Theorem deduplicate_leads_first_wins (L : list Lead) :
  deduplicate_leads (deduplicate_leads L) = deduplicate_leads L ∧
  deduplicate_leads L `sublist_of` L ∧
  (∀ lead : Lead,
     deduplicate_leads (L ++ [lead]) =
     deduplicate_leads L ++
     (if Py.truthy (trimmed_lower "Business Name" lead) &&
         negb (bool_decide (Exists (collide lead) L))
      then [lead] else [])) ∧
  (∀ i j a b,
     deduplicate_leads L !! i = Some a → deduplicate_leads L !! j = Some b →
     collide a b → i = j) ∧
  (∀ lead : Lead,
     lead ∈ L → Py.truthy (trimmed_lower "Business Name" lead) = true →
     ∃ kept, kept ∈ deduplicate_leads L ∧ collide lead kept).
Proof.
  unfold deduplicate_leads. split; [apply dedup_loop_idem|].
  split; [apply dedup_loop_sublist|]. split; [|split].
  - intros lead. rewrite dedup_loop_snoc.
    rewrite (bool_decide_eq_false_2 (_ ∈ ∅)) by apply not_elem_of_empty.
    rewrite andb_true_r.
    by rewrite (bool_decide_ext _ _ (dedup_key_seen lead L)).
  - intros i j a b Hi Hj Hab%dedup_key_collide.
    pose proof (dedup_loop_keys_NoDup ∅ L) as Hdup.
    rewrite NoDup_alt in Hdup. apply (Hdup i j (dedup_key a)).
    + by rewrite list_lookup_fmap, Hi.
    + by rewrite list_lookup_fmap, Hj, Hab.
  - intros lead Hin Hname.
    assert (dedup_key lead ∈ map dedup_key (dedup_loop ∅ L)) as Hkept
      by (apply dedup_loop_represented; [done..|apply not_elem_of_empty]).
    apply dedup_key_seen, Exists_exists in Hkept as (kept & Hk & Hc).
    by exists kept.
Qed.

(** case and outer spaces do not tell two leads apart, the address does:
    the second Joe's Cafe collides with the first, which is kept, and the
    two Greggs at different addresses are both kept *)
Lemma deduplicate_leads_first_wins_witness :
  deduplicate_leads [joe_first; joe_second; greggs_first; greggs_second] =
    [joe_first; greggs_first; greggs_second] ∧
  ∃ kept, kept ∈ deduplicate_leads [joe_first; joe_second] ∧
          collide joe_second kept.
Proof.
  split.
  - change [joe_first; joe_second; greggs_first; greggs_second]
      with ([joe_first; joe_second; greggs_first] ++ [greggs_second]).
    rewrite (proj1 (proj2 (proj2 (deduplicate_leads_first_wins _)))).
    change [joe_first; joe_second; greggs_first]
      with ([joe_first; joe_second] ++ [greggs_first]).
    rewrite (proj1 (proj2 (proj2 (deduplicate_leads_first_wins _)))).
    change [joe_first; joe_second] with ([joe_first] ++ [joe_second]).
    rewrite (proj1 (proj2 (proj2 (deduplicate_leads_first_wins _)))).
    change [joe_first] with ([] ++ [joe_first]).
    rewrite (proj1 (proj2 (proj2 (deduplicate_leads_first_wins _)))).
    reflexivity.
  - apply (proj2 (proj2 (proj2 (proj2
             (deduplicate_leads_first_wins [joe_first; joe_second])))) joe_second).
    + apply list_elem_of_further, list_elem_of_here.
    + reflexivity.
Defined.

(** ** The card loop of the orchestrator *)

Section CardLoop.

Variable s : Session.

Lemma name_with_card_name (business_name : string) (lead : Lead) :
  business_name_of (with_card_name business_name lead) =
  if negb (Py.truthy (business_name_of lead)) && Py.truthy business_name
  then business_name else business_name_of lead.
Proof.
  unfold with_card_name.
  destruct (negb _ && _); [|reflexivity].
  unfold business_name_of, field. by rewrite lookup_insert_eq.
Qed.

(** What one iteration can do to the run: nothing, a click that records no
    lead, or a click that records the lead of the detail view. *)
Lemma visit_card_cases (idx : nat) (r : Run) :
  let r' := snd (visit_card s idx r) in
  r' = r ∨
  (∃ cards card aria_label,
     listing s idx = Return cards ∧ cards !! idx = Some card ∧
     link_label card = Some aria_label ∧
     (Py.or_empty aria_label ∉ processed_names r) ∧
     (r' = {| leads := leads r; processed_names := processed_names r;
              opened := opened r ++ [idx] |} ∨
      ∃ view,
        on_click card = Opens view ∧
        let lead := with_card_name (Py.or_empty aria_label)
                      (extract_business_details view) in
        Py.truthy (business_name_of lead) = true ∧
        r' = {| leads := leads r ++ [lead];
                processed_names := processed_names r ∪ {[business_name_of lead]};
                opened := opened r ++ [idx] |})).
Proof.
  unfold visit_card.
  destruct (listing s idx) as [cards|e] eqn:Hlist; [|by left].
  destruct (cards !! idx) as [card|] eqn:Hcard; [|by left].
  destruct (link_label card) as [aria_label|] eqn:Hlink; [|by left].
  case_bool_decide as Hseen; [by left|].
  right. exists cards, card, aria_label. repeat split; try done.
  destruct (on_click card) as [| |view] eqn:Hclick; simpl; [by left..|].
  destruct (Py.truthy _) eqn:Hname; simpl; [|by left].
  right. by exists view.
Qed.

(** a card whose label is among the processed names leaves the run as it is *)
Lemma visit_card_skip (idx : nat) (r : Run) cards card aria_label :
  listing s idx = Return cards → cards !! idx = Some card →
  link_label card = Some aria_label →
  Py.or_empty aria_label ∈ processed_names r →
  visit_card s idx r = (Continue, r).
Proof.
  intros Hlist Hcard Hlink Hseen. unfold visit_card.
  rewrite Hlist, Hcard, Hlink. by rewrite bool_decide_eq_true_2.
Qed.

Lemma iterate_cards_step (n : nat) :
  snd (iterate_cards s (S n)) = snd (iterate_cards s n) ∨
  (fst (iterate_cards s n) = Continue ∧
   snd (iterate_cards s (S n)) = snd (visit_card s n (snd (iterate_cards s n)))).
Proof.
  simpl. destruct (iterate_cards s n) as [[|] r]; simpl; [by right | by left].
Qed.

Lemma iterate_cards_names (n : nat) :
  processed_names (snd (iterate_cards s n)) =
  list_to_set (map business_name_of (leads (snd (iterate_cards s n)))).
Proof.
  induction n as [|n IH]; [reflexivity|].
  destruct (iterate_cards_step n) as [->|[_ ->]]; [done|].
  destruct (visit_card_cases n (snd (iterate_cards s n)))
    as [->|(cards & card & label & _ & _ & _ & _ & [->|(view & _ & _ & ->)])];
    simpl; try done.
  rewrite map_app, list_to_set_app_L, IH. simpl. by rewrite union_empty_r_L.
Qed.

Lemma iterate_cards_named (n : nat) (lead : Lead) :
  lead ∈ leads (snd (iterate_cards s n)) → business_name_of lead ≠ "".
Proof.
  induction n as [|n IH]; [intros H; inversion H|].
  destruct (iterate_cards_step n) as [->|[_ ->]]; [done|].
  destruct (visit_card_cases n (snd (iterate_cards s n)))
    as [->|(cards & card & label & _ & _ & _ & _ & [->|(view & _ & Hname & ->)])];
    simpl; try done.
  intros [Hin| ->%list_elem_of_singleton]%elem_of_app; [by apply IH|].
  by apply truthy_true_iff.
Qed.

Lemma iterate_cards_opened_lt (n i : nat) :
  i ∈ opened (snd (iterate_cards s n)) → i < n.
Proof.
  revert i. induction n as [|n IH]; intros i; [intros H; inversion H|].
  destruct (iterate_cards_step n) as [->|[_ ->]]; [intros ?%IH; lia|].
  destruct (visit_card_cases n (snd (iterate_cards s n)))
    as [->|(cards & card & label & _ & _ & _ & _ & [->|(view & _ & _ & ->)])];
    simpl; try (intros ?%IH; lia);
    (intros [?%IH| ->%list_elem_of_singleton]%elem_of_app; lia).
Qed.

(** clicks are only ever added for the index being visited *)
Lemma iterate_cards_opened_later (n m i : nat) :
  i < n → n ≤ m →
  i ∈ opened (snd (iterate_cards s m)) → i ∈ opened (snd (iterate_cards s n)).
Proof.
  intros Hi Hnm. induction Hnm as [|m Hnm IH]; [done|].
  destruct (iterate_cards_step m) as [->|[_ ->]]; [done|].
  destruct (visit_card_cases m (snd (iterate_cards s m)))
    as [->|(cards & card & label & _ & _ & _ & _ & [->|(view & _ & _ & ->)])];
    simpl; try done;
    (intros [?| ->%list_elem_of_singleton]%elem_of_app; [auto | lia]).
Qed.

Lemma iterate_cards_skips (n idx : nat) cards card aria_label :
  listing s idx = Return cards → cards !! idx = Some card →
  link_label card = Some aria_label →
  Py.or_empty aria_label ∈
    map business_name_of (leads (snd (iterate_cards s idx))) →
  idx ∉ opened (snd (iterate_cards s n)).
Proof.
  intros Hlist Hcard Hlink Hseen Hopened.
  destruct (decide (n ≤ idx)) as [Hle|Hgt].
  { apply iterate_cards_opened_lt in Hopened. lia. }
  apply (iterate_cards_opened_later (S idx)) in Hopened; [|lia..].
  assert (snd (iterate_cards s (S idx)) = snd (iterate_cards s idx)) as Hsame.
  { destruct (iterate_cards_step idx) as [->|[_ ->]]; [done|].
    erewrite visit_card_skip; eauto.
    rewrite iterate_cards_names. by apply elem_of_list_to_set. }
  rewrite Hsame in Hopened.
  apply iterate_cards_opened_lt in Hopened. lia.
Qed.

(** what has been clicked stays clicked *)
Lemma iterate_cards_opened_next (n i : nat) :
  i ∈ opened (snd (iterate_cards s n)) → i ∈ opened (snd (iterate_cards s (S n))).
Proof.
  destruct (iterate_cards_step n) as [->|[_ ->]]; [done|].
  destruct (visit_card_cases n (snd (iterate_cards s n)))
    as [->|(cards & card & label & _ & _ & _ & _ & [->|(view & _ & _ & ->)])];
    simpl; try done; intros Hi; apply elem_of_app; by left.
Qed.

Lemma iterate_cards_NoDup (n : nat) :
  names_agree s (snd (iterate_cards s n)) →
  NoDup (map business_name_of (leads (snd (iterate_cards s n)))).
Proof.
  induction n as [|n IH]; [constructor|]. intros Hagree.
  assert (names_agree s (snd (iterate_cards s n))) as Hbefore.
  { intros idx cards card label view Hin. apply Hagree.
    by apply iterate_cards_opened_next. }
  specialize (IH Hbefore).
  revert Hagree.
  destruct (iterate_cards_step n) as [->|[_ ->]]; [done|].
  pose proof (iterate_cards_names n) as Hnames.
  destruct (visit_card_cases n (snd (iterate_cards s n)))
    as [->|(cards & card & label & Hlist & Hcard & Hlink & Hnew &
            [->|(view & Hclick & Hname & ->)])];
    simpl; try done.
  intros Hagree.
  rewrite map_app. simpl.
  apply NoDup_app. split; [done|]. split; [|apply NoDup_singleton].
  intros name Hold ->%list_elem_of_singleton.
  apply Hnew. rewrite Hnames. apply elem_of_list_to_set.
  rewrite name_with_card_name in Hname, Hold.
  assert (n ∈ opened (snd (iterate_cards s n)) ++ [n]) as Hopened
    by (apply elem_of_app; right; apply list_elem_of_here).
  destruct (Hagree n cards card label view Hopened Hlist Hcard Hlink Hclick)
    as [He|He].
  - rewrite He in Hname, Hold. simpl in Hname, Hold.
    destruct (Py.truthy (Py.or_empty label)); [done | discriminate].
  - destruct (negb _ && _); [done | by rewrite <- He].
Qed.

End CardLoop.

Lemma scrape_run_cases fuel keyword city country max_results (s : Session) (r : Run) :
  scrape_run fuel keyword city country max_results s = Some (Return r) →
  r = start ∨ ∃ n, r = snd (iterate_cards s n).
Proof.
  unfold scrape_run. intros H.
  repeat match type of H with
         | match ?x with _ => _ end = _ => destruct x; try discriminate
         | (if ?b then _ else _) = _ => destruct b
         end;
  injection H as <-; eauto.
Qed.

(** ** C4: deduplication by name within one run *)

(** C4, as stated, fails: two cards labelled "Cafe Uno" whose detail views
    are headed "Joe's Cafe" are both opened, and the returned list holds two
    leads of that name. *)
Lemma twin_cards_yield_same_name_twice :
  ¬ NoDup (returned_names
             (scrape_google_maps 30 "Bakery" "Leeds" "UK" 10 twin_session)).
Proof.
  vm_compute. intros H. apply NoDup_cons in H as [H _].
  apply H. apply list_elem_of_here.
Qed.

(** C4, amended: the names in [processed_names] are those of the leads
    recorded so far; a card whose label is the name of a lead recorded
    before its turn is skipped without a click; and the returned leads have
    pairwise distinct names provided every card the run opened has a detail
    view that yields no name or the card's own label. *)
Theorem scrape_skips_processed_names fuel keyword city country max_results
    (s : Session) (r : Run) :
  scrape_run fuel keyword city country max_results s = Some (Return r) →
  processed_names r = list_to_set (map business_name_of (leads r)) ∧
  (∀ idx cards card aria_label,
     listing s idx = Return cards → cards !! idx = Some card →
     link_label card = Some aria_label →
     Py.or_empty aria_label ∈
       map business_name_of (leads (snd (iterate_cards s idx))) →
     idx ∉ opened r) ∧
  (names_agree s r → NoDup (map business_name_of (leads r))).
Proof.
  intros [->|[n ->]]%scrape_run_cases.
  - split; [reflexivity|]. split; [|intros _; constructor].
    intros idx ? ? ? _ _ _ _ H. inversion H.
  - split; [apply iterate_cards_names|].
    split; [|apply iterate_cards_NoDup].
    intros idx cards card label. apply iterate_cards_skips.
Qed.

(** in [shadowed_session] with a target of two, only the first card is
    opened: the second, labelled like the first lead, is skipped although
    its detail view is headed by another name, and the third is never
    reached; the cards opened agree with their views, and the names
    returned are distinct *)
Lemma scrape_skips_processed_names_witness :
  scrape_run 30 "Bakery" "Leeds" "UK" 2 shadowed_session =
    Some (Return (snd (iterate_cards shadowed_session 2))) ∧
  opened (snd (iterate_cards shadowed_session 2)) = [0] ∧
  (1 ∉ opened (snd (iterate_cards shadowed_session 2))) ∧
  NoDup (map business_name_of (leads (snd (iterate_cards shadowed_session 2)))).
Proof.
  assert (scrape_run 30 "Bakery" "Leeds" "UK" 2 shadowed_session =
          Some (Return (snd (iterate_cards shadowed_session 2)))) as Hrun
    by (vm_compute; reflexivity).
  assert (opened (snd (iterate_cards shadowed_session 2)) = [0]) as Hopened
    by (vm_compute; reflexivity).
  split; [exact Hrun|]. split; [exact Hopened|].
  destruct (scrape_skips_processed_names _ _ _ _ _ _ _ Hrun)
    as (_ & Hskip & Hdistinct).
  split.
  - eapply (Hskip 1); [reflexivity | reflexivity | reflexivity |].
    vm_compute. apply list_elem_of_here.
  - apply Hdistinct.
    intros idx cards card aria_label view Hin [= <-] Hcard Hlink Hclick.
    rewrite Hopened in Hin. apply list_elem_of_singleton in Hin as ->.
    simpl in Hcard. injection Hcard as <-. simpl in Hlink, Hclick.
    injection Hlink as <-. injection Hclick as <-.
    right. vm_compute. reflexivity.
Defined.

(** ** C7: no lead without a name *)

Lemma scrape_google_maps_run fuel keyword city country max_results
    (s : Session) (found : list Lead) :
  scrape_google_maps fuel keyword city country max_results s = Some (Return found) →
  ∃ r, scrape_run fuel keyword city country max_results s = Some (Return r) ∧
       found = leads r.
Proof.
  unfold scrape_google_maps.
  destruct (scrape_run _ _ _ _ _ _) as [[r|e]|]; [|discriminate..].
  intros [= <-]. by exists r.
Qed.

Lemma lower_empty (t : string) : Py.lower t = "" → t = "".
Proof. by destruct t. Qed.

(** C7: every lead the orchestrator returns has a non-empty name, and
    [deduplicate_leads] emits no lead whose trimmed name is empty, whatever
    its other fields hold. *)
Theorem no_lead_without_name :
  (∀ fuel keyword city country max_results (s : Session) (found : list Lead)
     (lead : Lead),
     scrape_google_maps fuel keyword city country max_results s
       = Some (Return found) →
     lead ∈ found → business_name_of lead ≠ "") ∧
  (∀ (L : list Lead) (lead : Lead),
     lead ∈ deduplicate_leads L → Py.strip (business_name_of lead) ≠ "").
Proof.
  split.
  - intros fuel keyword city country max_results s found lead Hrun Hin.
    apply scrape_google_maps_run in Hrun as (r & Hrun & ->).
    apply scrape_run_cases in Hrun as [->|[n ->]]; [inversion Hin|].
    by eapply iterate_cards_named.
  - intros L lead Hin Hempty.
    apply dedup_loop_named in Hin. apply truthy_true_iff in Hin.
    apply Hin. unfold dedup_key, business_name_of in *. simpl.
    by rewrite strip_lower, Hempty.
Qed.

(** the second lead of [repeat_session] takes its card's label as its name *)
Lemma no_lead_without_name_witness :
  business_name_of
    (with_card_name "Bun House" (extract_business_details (view_named ""))) ≠ "" ∧
  Py.strip (business_name_of {[ "Business Name" := " Joe's Cafe " ]}) ≠ "".
Proof.
  destruct no_lead_without_name as [Hrun Hdedup]. split.
  - eapply (Hrun 30 "Bakery" "Leeds" "UK" 10%Z repeat_session).
    + vm_compute. reflexivity.
    + apply list_elem_of_further, list_elem_of_here.
  - apply (Hdedup [ {[ "Business Name" := " Joe's Cafe " ]} ]).
    vm_compute. apply list_elem_of_here.
Defined.

(** ** C8: the scroller terminates *)

Section Scroller.

Variable items : nat -> list Card.
Variable max_results : Z.
Variable bound : nat.
Hypothesis items_grow : ∀ k, length (items k) ≤ length (items (S k)).
Hypothesis items_bounded : ∀ k, length (items k) ≤ bound.

Lemma previous_count_le (k : nat) : previous_count items k ≤ length (items k).
Proof. destruct k; simpl; [lia | apply items_grow]. Qed.

Lemma previous_count_bounded (k : nat) : previous_count items k ≤ bound.
Proof. etrans; [apply previous_count_le | apply items_bounded]. Qed.

Lemma stalled_at_true (n : nat) :
  stalled_at items n = true ↔
  19 ≤ n ∧ ∀ j, n - 19 ≤ j ≤ n → stall items j = true.
Proof.
  unfold stalled_at. rewrite andb_true_iff, Nat.leb_le, forallb_forall.
  split; intros [Hn Hall]; (split; [done|]).
  - intros j Hj. apply Hall, in_seq. lia.
  - intros j Hj%in_seq. apply Hall. lia.
Qed.

Lemma not_stalled_at (k a : nat) :
  at_head items k a → a < 19 → stall items k = true → stalled_at items k = false.
Proof.
  intros (Hak & _ & Hbefore) Ha Hk.
  apply not_true_is_false. intros [Hn Hall]%stalled_at_true.
  assert (a < k) as Hlt by lia.
  specialize (Hbefore Hlt). rewrite Hall in Hbefore by lia. discriminate.
Qed.

Lemma grown_not_stalled_at (k : nat) :
  stall items k = false → stalled_at items k = false.
Proof.
  intros Hk. apply not_true_is_false. intros [Hn Hall]%stalled_at_true.
  rewrite Hall in Hk by lia. discriminate.
Qed.

Lemma scroll_loop_stops (m : nat) :
  ∀ k a,
    a < 20 → at_head items k a →
    20 * (bound - previous_count items k) + (20 - a) ≤ m →
    (∀ j, j < k → stops_at items max_results j = false) →
    ∃ n, k ≤ n ∧ n < k + m ∧
         stops_at items max_results n = true ∧
         (∀ j, j < n → stops_at items max_results j = false) ∧
         ∀ fuel, n + 1 - k < fuel →
           scroll_loop fuel (always_found items) max_results k (previous_count items k) a
           = Some (Return (S n)).
Proof.
  induction m as [|m IH]; intros k a Ha Hhead Hm Hearlier; [lia|].
  destruct (Z.leb_spec max_results (Z.of_nat (length (items k)))) as [Hfull|Hshort].
  { exists k. split; [lia|]. split; [lia|].
    split; [unfold stops_at; apply orb_true_iff; left; by apply Z.leb_le|].
    split; [done|]. intros [|fuel] Hfuel; [lia|]. simpl.
    destruct (Nat.ltb_spec a max_scroll_attempts) as [_|Hge];
      [|unfold max_scroll_attempts in Hge; lia].
    unfold always_found. by rewrite (proj2 (Z.leb_le _ _) Hfull). }
  assert (∀ fuel,
            scroll_loop (S fuel) (always_found items) max_results k (previous_count items k) a =
            if length (items k) =? previous_count items k
            then scroll_loop fuel (always_found items) max_results (S k)
                   (previous_count items k) (S a)
            else scroll_loop fuel (always_found items) max_results (S k) (length (items k)) 0)
    as Hunfold.
  { intros fuel. simpl.
    destruct (Nat.ltb_spec a max_scroll_attempts) as [_|Hge];
      [|unfold max_scroll_attempts in Hge; lia].
    unfold always_found. by rewrite (proj2 (Z.leb_gt _ _) Hshort). }
  destruct Hhead as (Hak & Hstalls & Hbefore).
  pose proof (previous_count_le k) as Hle.
  pose proof (items_bounded k) as Hbd.
  destruct (stall items k) eqn:Hk.
  - (* a stall *)
    pose proof Hk as Hk'. unfold stall in Hk'. apply Nat.eqb_eq in Hk'.
    destruct (decide (a = 19)) as [->|Hne].
    + exists k. split; [lia|]. split; [lia|].
      split.
      { unfold stops_at. apply orb_true_iff. right.
        apply stalled_at_true. split; [lia|].
        intros j Hj. destruct (decide (j = k)) as [->|]; [done|].
        apply Hstalls. lia. }
      split; [done|]. intros [|[|fuel]] Hfuel; [lia..|].
      rewrite Hunfold. unfold stall in Hk. rewrite Hk. reflexivity.
    + destruct (IH (S k) (S a)) as (n & Hn1 & Hn2 & Hstop & Hfirst & Hrun).
      * lia.
      * split; [lia|]. split.
        -- intros j Hj. destruct (decide (j = k)) as [->|]; [done|].
           apply Hstalls. lia.
        -- intros Hlt. replace (S k - S a - 1) with (k - a - 1) by lia.
           apply Hbefore. lia.
      * simpl. rewrite Hk'. lia.
      * intros j Hj. destruct (decide (j = k)) as [->|]; [|apply Hearlier; lia].
        unfold stops_at. rewrite (proj2 (Z.leb_gt _ _) Hshort). simpl.
        apply (not_stalled_at k a); [done | lia | done].
      * exists n. split; [lia|]. split; [lia|]. split; [done|]. split; [done|].
        intros [|fuel] Hfuel; [lia|]. rewrite Hunfold.
        unfold stall in Hk. rewrite Hk. simpl in Hrun. rewrite Hk' in Hrun.
        apply Hrun. lia.
  - (* the count has grown *)
    pose proof Hk as Hk'. unfold stall in Hk'. apply Nat.eqb_neq in Hk'.
    destruct (IH (S k) 0) as (n & Hn1 & Hn2 & Hstop & Hfirst & Hrun).
    + lia.
    + split; [lia|]. split; [intros j Hj; lia|].
      intros _. by replace (S k - 0 - 1) with k by lia.
    + simpl. lia.
    + intros j Hj. destruct (decide (j = k)) as [->|]; [|apply Hearlier; lia].
      unfold stops_at. rewrite (proj2 (Z.leb_gt _ _) Hshort). simpl.
      by apply grown_not_stalled_at.
    + exists n. split; [lia|]. split; [lia|]. split; [done|]. split; [done|].
      intros [|fuel] Hfuel; [lia|]. rewrite Hunfold.
      unfold stall in Hk. rewrite Hk. apply Hrun. lia.
Qed.

End Scroller.

Example scroll_stalls_short :
  scroll_results_panel 22 (always_found (fun _ => three_cards)) 10
  = Some (Return three_cards).
Proof. reflexivity. Qed.

(** C8: when the item count never shrinks and stays below a bound, the
    scroller ends after fewer than [20 * (bound + 1)] iterations: at the
    first iteration whose count reaches [max_results] or which is the
    twentieth in a row not to grow the count (the counter starts again at
    every growth); it returns the item list found by the query after that
    iteration, whatever its length. *)
Theorem scroll_results_panel_terminates (items : nat -> list Card)
    (max_results : Z) (bound : nat) :
  (∀ k, length (items k) ≤ length (items (S k))) →
  (∀ k, length (items k) ≤ bound) →
  ∃ n, n < 20 * (bound + 1) ∧
       stops_at items max_results n = true ∧
       (∀ j, j < n → stops_at items max_results j = false) ∧
       ∀ fuel, n + 1 < fuel →
         scroll_results_panel fuel (always_found items) max_results
         = Some (Return (items (S n))).
Proof.
  intros Hgrow Hbound.
  destruct (scroll_loop_stops items max_results bound Hgrow Hbound
              (20 * (bound + 1)) 0 0)
    as (n & _ & Hn & Hstop & Hfirst & Hrun).
  - lia.
  - split; [lia|]. split; intros; lia.
  - simpl. lia.
  - intros j Hj. lia.
  - exists n. split; [lia|]. split; [done|]. split; [done|].
    intros fuel Hfuel. unfold scroll_results_panel.
    change 0 with (previous_count items 0) at 2.
    rewrite Hrun by lia. reflexivity.
Qed.

(** a result list that stays at three cards, with a target of ten *)
Lemma scroll_results_panel_terminates_witness :
  ∃ n, n < 20 * (3 + 1) ∧
       stops_at (fun _ => three_cards) 10 n = true ∧
       (∀ j, j < n → stops_at (fun _ => three_cards) 10 j = false) ∧
       ∀ fuel, n + 1 < fuel →
         scroll_results_panel fuel (always_found (fun _ => three_cards)) 10
         = Some (Return three_cards).
Proof.
  apply (scroll_results_panel_terminates (fun _ => three_cards) 10 3);
    intros k; simpl; lia.
Defined.

(** ** C9: the bulk runner *)

(** a loop whose count changes at every poll and stays below the target is
    still running when the fuel is spent, whatever the fuel *)
Lemma scroll_loop_restless (items : nat -> list Card) (max_results : Z) :
  (∀ k, length (items k) ≠ previous_count items k) →
  (∀ k, (Z.of_nat (length (items k)) < max_results)%Z) →
  ∀ fuel k a, a < 20 →
    scroll_loop fuel (always_found items) max_results k (previous_count items k) a
    = None.
Proof.
  intros Hchange Hshort. induction fuel as [|fuel IH]; intros k a Ha; [reflexivity|].
  cbn [scroll_loop].
  destruct (Nat.ltb_spec a max_scroll_attempts) as [_|Hge];
    [|unfold max_scroll_attempts in Hge; lia].
  unfold always_found at 1.
  rewrite (proj2 (Z.leb_gt _ _) (Hshort k)).
  rewrite (proj2 (Nat.eqb_neq _ _) (Hchange k)).
  apply (IH (S k) 0). lia.
Qed.

Lemma flickering_never_settles (fuel : nat) :
  scroll_loop fuel (always_found flickering) 10 0 0 0 = None.
Proof.
  apply (scroll_loop_restless flickering 10); [| |lia].
  - intros [|k]; [simpl; lia|]. unfold previous_count, flickering.
    rewrite Nat.even_succ, <- Nat.negb_even.
    destruct (Nat.even k); simpl; lia.
  - intros k. unfold flickering. destruct (Nat.even k); simpl; lia.
Qed.

Lemma restless_run_never_ends fuel keyword city country :
  scrape_google_maps fuel keyword city country 10 restless_session = None.
Proof.
  unfold scrape_google_maps, scrape_run, scroll_results_panel.
  cbn [launch buttons results_page polls restless_session].
  assert (first_hit (fun selector => feed_page !! selector) container_selectors
          = Some {| text := ""; attributes := ∅ |}) as -> by reflexivity.
  by rewrite flickering_never_settles.
Qed.

(** a loop that has ended within [fuel] iterations ends alike with more *)
Lemma scroll_loop_more_fuel (polls : nat -> Outcome (list Card)) (max_results : Z)
    (fuel : nat) :
  ∀ k last_count scroll_attempts out fuel',
    scroll_loop fuel polls max_results k last_count scroll_attempts = Some out →
    fuel ≤ fuel' →
    scroll_loop fuel' polls max_results k last_count scroll_attempts = Some out.
Proof.
  induction fuel as [|fuel IH]; intros k last a out fuel' Hrun Hle;
    [discriminate|].
  destruct fuel' as [|fuel']; [lia|].
  cbn [scroll_loop] in *.
  destruct (a <? max_scroll_attempts); [|done].
  destruct (polls k) as [business_items|e]; [|done].
  destruct (max_results <=? _)%Z; [done|].
  destruct (_ =? _); apply IH; (done || lia).
Qed.

Lemma scrape_google_maps_more_fuel fuel fuel' keyword city country max_results
    (s : Session) :
  scrape_google_maps fuel keyword city country max_results s ≠ None →
  fuel ≤ fuel' →
  scrape_google_maps fuel' keyword city country max_results s =
  scrape_google_maps fuel keyword city country max_results s.
Proof.
  unfold scrape_google_maps, scrape_run, scroll_results_panel.
  intros Hends Hle.
  destruct (launch s _); [done|]. destruct (buttons s); [done|].
  destruct (results_page s) as [dom|e]; [|done].
  destruct (first_hit _ _); [|done].
  destruct (scroll_loop fuel _ _ _ _ _) as [out|] eqn:Hloop; [|done].
  by rewrite (scroll_loop_more_fuel _ _ _ _ _ _ _ _ Hloop Hle).
Qed.

Lemma bulk_step_ends fuel max_results sessions (idx : nat)
    (search : gmap string string) (all_leads : list Lead) :
  sub_run_ends fuel max_results sessions idx search →
  bulk_step fuel max_results sessions idx search all_leads =
  Some (Return (all_leads ++ tagged_leads fuel max_results sessions idx search)).
Proof.
  unfold sub_run_ends, bulk_step, tagged_leads.
  destruct (scrape_google_maps _ _ _ _ _ _) as [[found|e]|]; [done| |done].
  by rewrite app_nil_r.
Qed.

Lemma bulk_loop_collects fuel0 fuel max_results sessions
    (searches : list (gmap string string)) :
  fuel0 ≤ fuel →
  ∀ (idx : nat) (all_leads : list Lead),
    (∀ j search, searches !! j = Some search →
       sub_run_ends fuel0 max_results sessions (idx + j) search) →
    bulk_loop fuel max_results sessions idx searches all_leads =
    Some (Return (all_leads ++
                  concat (imap (fun j => tagged_leads fuel0 max_results sessions (idx + j))
                            searches))).
Proof.
  intros Hle.
  induction searches as [|search rest IH]; intros idx all_leads Hends;
    cbn [bulk_loop imap concat].
  - by rewrite app_nil_r.
  - assert (sub_run_ends fuel0 max_results sessions idx search) as Hhead
      by (specialize (Hends 0 search eq_refl); by rewrite Nat.add_0_r in Hends).
    assert (bulk_step fuel max_results sessions idx search all_leads =
            bulk_step fuel0 max_results sessions idx search all_leads) as ->
      by (unfold bulk_step; by rewrite (scrape_google_maps_more_fuel fuel0 fuel)).
    rewrite bulk_step_ends by done.
    rewrite IH.
    + rewrite <- app_assoc, Nat.add_0_r. do 5 f_equal.
      apply imap_ext. intros j x _. simpl. f_equal. lia.
    + intros j x Hj. replace (S idx + j) with (idx + S j) by lia.
      by apply Hends.
Qed.

(** C9, as stated, fails: of two sub-runs the first raises at the container
    lookup and the second never stops scrolling, its result count changing
    at every poll; the batch returns nothing, however long it runs. *)
Lemma bulk_waits_on_endless_run :
  scrape_google_maps 30 "Bakery" "Leeds" "UK" 10 (stuck_sessions 0)
    = Some (Raise "WebDriverException") ∧
  ¬ ∃ fuel out,
      scrape_bulk_searches fuel two_searches 10 stuck_sessions = Some out.
Proof.
  split; [reflexivity|]. intros (fuel & out & Hrun).
  unfold scrape_bulk_searches, two_searches in Hrun.
  cbn [bulk_loop] in Hrun.
  assert (∀ search all_leads,
            bulk_step fuel 10 stuck_sessions 1 search all_leads = None) as Hstuck.
  { intros search all_leads. unfold bulk_step. cbn [stuck_sessions].
    by rewrite restless_run_never_ends. }
  change (bulk_step fuel 10 stuck_sessions 0 _ []) with (Some (Return (@nil Lead)))
    in Hrun.
  cbn [bulk_loop] in Hrun. by rewrite Hstuck in Hrun.
Qed.

(** C9, amended: when every sub-run ends, each within [fuel0] iterations of
    its scroller, [scrape_bulk_searches] ends too, given that many
    iterations or more: it raises nothing and returns the leads of the
    sub-runs that returned, each tagged with its query, in the order of the
    searches; a sub-run that raises adds nothing and stops nothing. *)
Theorem bulk_survives_failed_runs fuel0 (searches : list (gmap string string))
    max_results sessions :
  (∀ idx search, searches !! idx = Some search →
     sub_run_ends fuel0 max_results sessions idx search) →
  ∀ fuel, fuel0 ≤ fuel →
    scrape_bulk_searches fuel searches max_results sessions =
    Some (Return (concat (imap (tagged_leads fuel0 max_results sessions) searches))).
Proof.
  intros Hends fuel Hle. unfold scrape_bulk_searches.
  rewrite (bulk_loop_collects fuel0) by done. reflexivity.
Qed.

(** two searches: the first sub-run returns five leads, the second raises
    at the container lookup; five leads are returned, with thirty
    iterations or more *)
Lemma bulk_survives_failed_runs_witness :
  scrape_google_maps 30 "Cafe" "York" "UK" 10 (two_sessions 1)
    = Some (Raise "WebDriverException") ∧
  length (returned_names (scrape_google_maps 30 "Bakery" "Leeds" "UK" 10 (two_sessions 0)))
    = 5 ∧
  ∀ fuel, 30 ≤ fuel →
    ∃ found, scrape_bulk_searches fuel two_searches 10 two_sessions = Some (Return found) ∧
             length found = 5.
Proof.
  split; [reflexivity|]. split; [vm_compute; reflexivity|].
  intros fuel Hfuel.
  exists (concat (imap (tagged_leads 30 10 two_sessions) two_searches)). split.
  - apply (bulk_survives_failed_runs 30); [|exact Hfuel].
    intros idx search Hsearch.
    assert (idx < 2) as Hidx by (apply lookup_lt_Some in Hsearch; exact Hsearch).
    destruct idx as [|[|idx]]; [| |lia];
      injection Hsearch as <-; unfold sub_run_ends;
      apply (bool_decide_eq_true_1 _); vm_compute; reflexivity.
  - vm_compute. reflexivity.
Defined.

(** ** Numerals with '.' or ',' *)

Section Numerals.

Lemma app_cons (c : ascii) (a b : string) : String c a +:+ b = String c (a +:+ b).
Proof. reflexivity. Qed.

Lemma app_empty_r (a : string) : a +:+ "" = a.
Proof. induction a as [|c a IH]; [reflexivity|]. by rewrite app_cons, IH. Qed.

Lemma digit_facts (c : ascii) :
  Py.is_digit c = true →
  PyFloat.is_space c = false ∧ Py.is_upper_az c = false ∧
  (Py.code c =? 44)%N = false ∧ (Py.code c =? 45)%N = false ∧
  (Py.code c =? 43)%N = false ∧ (Py.code c =? 46)%N = false ∧
  (Py.code c =? 95)%N = false ∧ (Py.code c =? 105)%N = false ∧
  (Py.code c =? 110)%N = false.
Proof.
  destruct c as [[] [] [] [] [] [] [] []]; vm_compute; intros H;
    try discriminate H; repeat split.
Qed.

Lemma plain_not_space (c : ascii) : plain c = true → PyFloat.is_space c = false.
Proof. destruct c as [[] [] [] [] [] [] [] []]; vm_compute; congruence. Qed.

Lemma plain_not_comma (c : ascii) : plain c = true → (Py.code c =? 44)%N = false.
Proof. destruct c as [[] [] [] [] [] [] [] []]; vm_compute; congruence. Qed.

Lemma all_chars_app (p : ascii -> bool) (a b : string) :
  all_chars p (a +:+ b) = all_chars p a && all_chars p b.
Proof.
  induction a as [|c a IH]; [reflexivity|].
  rewrite app_cons. simpl. rewrite IH. by rewrite andb_assoc.
Qed.

Lemma all_chars_weaken (p q : ascii -> bool) (t : string) :
  (∀ c, p c = true → q c = true) → all_chars p t = true → all_chars q t = true.
Proof.
  intros Hpq. induction t as [|c t IH]; simpl; [done|].
  intros [Hc Ht]%andb_true_iff. rewrite (Hpq c Hc). by apply IH.
Qed.

Lemma digits_plain (t : string) :
  all_chars Py.is_digit t = true → all_chars plain t = true.
Proof.
  apply all_chars_weaken. intros c Hc. unfold plain. by rewrite Hc.
Qed.

Lemma rstrip_plain (t : string) : all_chars plain t = true → PyFloat.rstrip t = t.
Proof.
  induction t as [|c t IH]; simpl; [done|].
  intros [Hc Ht]%andb_true_iff. rewrite (plain_not_space c Hc), IH; done.
Qed.

Lemma lstrip_plain (t : string) : all_chars plain t = true → PyFloat.lstrip t = t.
Proof.
  destruct t as [|c t]; simpl; [done|].
  intros [Hc _]%andb_true_iff. by rewrite (plain_not_space c Hc).
Qed.

Lemma replace_comma_cons (c : ascii) (t : string) :
  Py.replace "," "." (String c t) =
  String (if (Py.code c =? 44)%N then "."%char else c) (Py.replace "," "." t).
Proof.
  unfold Py.replace. cbn [Py.replace_go String.prefix].
  destruct (ascii_dec "," c) as [<-|Hne].
  - destruct t; reflexivity.
  - destruct (N.eqb_spec (Py.code c) 44) as [Heq|_]; [|reflexivity].
    exfalso. apply Hne. unfold Py.code in Heq.
    rewrite <- (ascii_N_embedding c), Heq. reflexivity.
Qed.

Lemma replace_comma_plain (t : string) :
  all_chars plain t = true → Py.replace "," "." t = t.
Proof.
  induction t as [|c t IH]; [done|]. simpl.
  intros [Hc Ht]%andb_true_iff.
  rewrite replace_comma_cons, (plain_not_comma c Hc), IH; done.
Qed.

Lemma replace_comma_app (a b : string) :
  Py.replace "," "." (a +:+ b) = Py.replace "," "." a +:+ Py.replace "," "." b.
Proof.
  induction a as [|c a IH]; [reflexivity|].
  rewrite app_cons, !replace_comma_cons, app_cons. by rewrite IH.
Qed.

Lemma digit_run_numeral (d rest : string) :
  all_chars Py.is_digit d = true → ends_numeral rest = true →
  PyFloat.digit_run (d +:+ rest) = (d, rest).
Proof.
  intros Hd Hrest. induction d as [|c d IH].
  - destruct rest as [|c rest]; [reflexivity|]. simpl in *.
    apply andb_true_iff in Hrest as [H1%negb_true_iff H2%negb_true_iff].
    cbn [String.append]. by rewrite H1, H2.
  - simpl in Hd. apply andb_true_iff in Hd as [Hc Hd].
    rewrite app_cons. cbn [PyFloat.digit_run]. rewrite Hc, IH; done.
Qed.

Lemma opt_digitpart_numeral (d rest : string) :
  is_numeral d = true → ends_numeral rest = true →
  PyFloat.opt_digitpart (d +:+ rest) = (d, rest).
Proof.
  unfold is_numeral. intros [Hne Hd]%andb_true_iff Hrest.
  destruct d as [|c d]; [discriminate|].
  simpl in Hd. apply andb_true_iff in Hd as [Hc Hd].
  rewrite app_cons. unfold PyFloat.opt_digitpart, PyFloat.digitpart.
  rewrite Hc, digit_run_numeral; done.
Qed.

Lemma number_decimal (a b : string) :
  is_numeral a = true → is_numeral b = true →
  PyFloat.number (a +:+ "." +:+ b) = Some (a, b, "").
Proof.
  intros Ha Hb. unfold PyFloat.number.
  rewrite opt_digitpart_numeral by done.
  change ("." +:+ b) with (String "."%char b). cbn [Py.code N_of_ascii].
  change (Py.code "."%char =? 46)%N with true. cbn iota.
  rewrite <- (app_empty_r b) at 1.
  rewrite opt_digitpart_numeral by done.
  apply andb_true_iff in Ha as [-> _]. reflexivity.
Qed.

Lemma float_decimal (a b : string) :
  is_numeral a = true → is_numeral b = true →
  PyFloat.float (a +:+ "." +:+ b) =
  Some (PyFloat.round_decimal false (PyFloat.digits_value 0 (a +:+ b))
          (- Z.of_nat (String.length b))).
Proof.
  intros Ha Hb.
  assert (all_chars plain (a +:+ "." +:+ b) = true) as Hplain.
  { apply andb_true_iff in Ha as [_ Ha], Hb as [_ Hb].
    rewrite !all_chars_app, (digits_plain a Ha), (digits_plain b Hb). done. }
  unfold PyFloat.float.
  rewrite lstrip_plain, rstrip_plain by done.
  pose proof (number_decimal a b Ha Hb) as Hnum.
  destruct a as [|c a]; [discriminate|].
  pose proof Ha as Hc. apply andb_true_iff in Hc as [_ Hc]. simpl in Hc.
  apply andb_true_iff in Hc as [Hc _].
  destruct (digit_facts c Hc) as (_ & Hup & _ & Hminus & Hplus & _ & _ & Hi & Hn).
  rewrite app_cons in *. unfold PyFloat.sign. rewrite Hminus, Hplus.
  cbn [PyFloat.lowercase]. unfold PyFloat.tolower. rewrite Hup.
  rewrite !bool_decide_eq_false_2.
  - cbn [orb]. unfold PyFloat.finite_literal. by rewrite Hnum.
  - intros [= -> _]. discriminate Hn.
  - intros [= -> _]. discriminate Hi.
  - intros [= -> _]. discriminate Hi.
Qed.

Lemma replace_comma_decimal (a b : string) :
  is_numeral a = true → is_numeral b = true →
  Py.replace "," "." (a +:+ "," +:+ b) = a +:+ "." +:+ b.
Proof.
  intros [_ Ha]%andb_true_iff [_ Hb]%andb_true_iff.
  rewrite !replace_comma_app.
  rewrite (replace_comma_plain a), (replace_comma_plain b)
    by by apply digits_plain.
  reflexivity.
Qed.

Lemma replace_dot_decimal (a b : string) :
  is_numeral a = true → is_numeral b = true →
  Py.replace "," "." (a +:+ "." +:+ b) = a +:+ "." +:+ b.
Proof.
  intros [_ Ha]%andb_true_iff [_ Hb]%andb_true_iff.
  apply replace_comma_plain.
  rewrite !all_chars_app, (digits_plain a Ha), (digits_plain b Hb). done.
Qed.

End Numerals.

(** ** C6: the minimum-rating filter *)

Lemma parse_rating_decimal (a b : string) :
  is_numeral a = true → is_numeral b = true →
  parse_rating (Some (a +:+ "." +:+ b)) =
  PyFloat.round_decimal false (PyFloat.digits_value 0 (a +:+ b))
    (- Z.of_nat (String.length b)).
Proof.
  intros Ha Hb. unfold parse_rating, cell_str.
  by rewrite replace_dot_decimal, float_decimal.
Qed.

Lemma parse_rating_comma (a b : string) :
  is_numeral a = true → is_numeral b = true →
  parse_rating (Some (a +:+ "," +:+ b)) = parse_rating (Some (a +:+ "." +:+ b)).
Proof.
  intros Ha Hb. unfold parse_rating, cell_str.
  by rewrite replace_comma_decimal, replace_dot_decimal.
Qed.

Lemma filter_leads_rating_only (df : DataFrame) (m : spec_float) :
  df_empty df = false → "Rating" ∈ columns df →
  filter_leads df None None None None (Some m) = Return (keep_rows (rating_ok m) df).
Proof.
  intros Hdf Hcol. unfold filter_leads. rewrite Hdf. simpl.
  by rewrite bool_decide_eq_true_2.
Qed.

Lemma zero_below_positive (m : spec_float) :
  positive m = true → PyFloat.ge (S754_zero false) m = false.
Proof. destruct m as [[]|[]| |[] mant e]; simpl; done. Qed.

(** C6: the rating text of a numeral with ',' parses like the same numeral
    with '.', to the nearest float of the decimal; text that [float()]
    rejects counts as 0; the filter keeps exactly the rows whose parsed
    rating is [>=] the minimum; "4,5" is kept at 4.0 and "N/A" is dropped at
    every positive minimum. *)
Theorem min_rating_filter :
  (∀ a b : string, is_numeral a = true → is_numeral b = true →
     parse_rating (Some (a +:+ "," +:+ b)) = parse_rating (Some (a +:+ "." +:+ b)) ∧
     parse_rating (Some (a +:+ "." +:+ b)) =
     PyFloat.round_decimal false (PyFloat.digits_value 0 (a +:+ b))
       (- Z.of_nat (String.length b))) ∧
  (∀ rating : string,
     PyFloat.float (Py.replace "," "." rating) = None →
     parse_rating (Some rating) = S754_zero false) ∧
  (∀ (df : DataFrame) (m : spec_float),
     df_empty df = false → "Rating" ∈ columns df →
     filter_leads df None None None None (Some m) =
     Return {| columns := columns df;
               rows := List.filter
                         (fun row => PyFloat.ge (parse_rating (row !! "Rating")) m)
                         (rows df) |}) ∧
  (∀ row : Lead, row !! "Rating" = Some "4,5" → rating_ok four row = true) ∧
  (∀ (row : Lead) (m : spec_float),
     row !! "Rating" = Some "N/A" → positive m = true → rating_ok m row = false).
Proof.
  split; [|split; [|split; [|split]]].
  - intros a b Ha Hb. split; [by apply parse_rating_comma | by apply parse_rating_decimal].
  - intros rating Hfail. unfold parse_rating, cell_str. by rewrite Hfail.
  - intros df m Hdf Hcol. by apply filter_leads_rating_only.
  - intros row Hrow. unfold rating_ok. rewrite Hrow. reflexivity.
  - intros row m Hrow Hm. unfold rating_ok. rewrite Hrow.
    change (parse_rating (Some "N/A")) with (S754_zero false).
    by apply zero_below_positive.
Qed.

(** [rated_frame] filtered at 4.0 *)
Lemma min_rating_filter_witness :
  parse_rating (Some "4,5") = parse_rating (Some "4.5") ∧
  parse_rating (Some "N/A") = S754_zero false ∧
  (match filter_leads rated_frame None None None None (Some four) with
   | Return d => map business_name_of (rows d)
   | Raise _ => []
   end) = ["Joe's Cafe"; "Loaf"] ∧
  rating_ok four (rated "Joe's Cafe" "4,5") = true ∧
  rating_ok four (rated "Bun House" "N/A") = false.
Proof.
  destruct min_rating_filter as (Hsep & Hzero & Hkeep & Hkept & Hdropped).
  split; [|split; [|split; [|split]]].
  - apply (Hsep "4" "5"); reflexivity.
  - apply Hzero. reflexivity.
  - rewrite Hkeep.
    + vm_compute. reflexivity.
    + reflexivity.
    + unfold rated_frame, lead_columns. simpl. repeat constructor.
  - apply Hkept. reflexivity.
  - apply Hdropped; reflexivity.
Defined.

(** ** C10: filtering an empty frame *)

Example unguarded_filter_raises :
  select_text "Phone" true no_frame = Raise "KeyError: Phone".
Proof. reflexivity. Qed.

(** C10: [filter_leads] returns an empty frame as it is, whatever the
    arguments: no predicate is applied to it, so none can raise. *)
Theorem filter_leads_empty_frame (df : DataFrame)
    (has_phone has_website has_email has_whatsapp : option bool)
    (min_rating : option spec_float) :
  df_empty df = true →
  filter_leads df has_phone has_website has_email has_whatsapp min_rating
  = Return df.
Proof. intros Hempty. unfold filter_leads. by rewrite Hempty. Qed.

(** [pd.DataFrame()] with every argument set *)
Lemma filter_leads_empty_frame_witness :
  filter_leads no_frame (Some true) (Some false) (Some true) (Some true) (Some four)
  = Return no_frame.
Proof. apply filter_leads_empty_frame. reflexivity. Defined.

(** ** C2: what [save_search] returns *)

Lemma save_search_returns_none (db : Database) (keyword city country : string)
    (found : list Lead) :
  fst (save_search db keyword city country found) = None.
Proof.
  unfold save_search.
  destruct (negb (db_available db) || negb (session_local db)); [reflexivity|].
  by destruct (responsive db).
Qed.

(** C2: on an available store whose insert succeeds, the new record gets the
    identifier 1 and can be loaded by it, yet [save_search] returns [None]
    and not that identifier. *)
Theorem save_search_drops_new_id :
  let result := save_search fresh_store "Bakery" "Leeds" "UK"
                  [rated "Joe's Cafe" "4,5"] in
  fst result = None ∧
  load_search (snd result) 1 =
  Some {| id := 1; keyword := "Bakery"; city := "Leeds"; country := "UK";
          leads_count := 1; leads_data := [rated "Joe's Cafe" "4,5"];
          created_at := 1700000000 |}.
Proof. split; reflexivity. Qed.

(** * Further properties of the code *)

(** a decidable fact about sample data, settled by evaluating its decision *)
Ltac by_evaluation := apply (bool_decide_eq_true_1 _); vm_compute; reflexivity.

(** ** Strings: appending, spans and classes *)

Lemma app_assoc_s (a b c : string) : (a +:+ b) +:+ c = a +:+ (b +:+ c).
Proof. induction a as [|x a IH]; [reflexivity|]. by rewrite !app_cons, IH. Qed.

Lemma app_length_s (a b : string) :
  String.length (a +:+ b) = String.length a + String.length b.
Proof. induction a as [|x a IH]; [reflexivity|]. rewrite app_cons. simpl. by rewrite IH. Qed.

Lemma span_spec (p : ascii -> bool) (s a b : string) :
  Py.span p s = (a, b) → s = a +:+ b ∧ all_chars p a = true.
Proof.
  revert a b. induction s as [|c s IH]; intros a b; simpl.
  - by intros [= <- <-].
  - destruct (p c) eqn:Hc.
    + destruct (Py.span p s) as [a' b'] eqn:Hs. intros [= <- <-].
      destruct (IH a' b' eq_refl) as [-> Ha'].
      rewrite app_cons. simpl. by rewrite Hc, Ha'.
    + by intros [= <- <-].
Qed.

Lemma span_fst_spec (p : ascii -> bool) (s : string) :
  ∃ rest, s = fst (Py.span p s) +:+ rest ∧ all_chars p (fst (Py.span p s)) = true.
Proof.
  destruct (Py.span p s) as [a b] eqn:Hs. exists b. by apply span_spec.
Qed.

(** a span takes at least every leading run of the class *)
Lemma span_covers (p : ascii -> bool) (m rest : string) :
  all_chars p m = true →
  String.length m ≤ String.length (fst (Py.span p (m +:+ rest))).
Proof.
  induction m as [|c m IH]; [simpl; lia|]. cbn [all_chars].
  intros [Hc Hm]%andb_true_iff. rewrite app_cons. cbn [Py.span]. rewrite Hc.
  specialize (IH Hm). destruct (Py.span p (m +:+ rest)). simpl in *. lia.
Qed.

Lemma all_chars_lstrip (p : ascii -> bool) (s : string) :
  all_chars p s = true → all_chars p (Py.lstrip s) = true.
Proof.
  induction s as [|c s IH]; simpl; [done|].
  intros H. destruct (Py.is_space c); [|done].
  apply andb_true_iff in H as [_ H]. by apply IH.
Qed.

Lemma all_chars_rstrip (p : ascii -> bool) (s : string) :
  all_chars p s = true → all_chars p (Py.rstrip s) = true.
Proof.
  induction s as [|c s IH]; simpl; [done|].
  intros [Hc Hs]%andb_true_iff. destruct (_ && _); [done|].
  simpl. by rewrite Hc, IH.
Qed.

Lemma all_chars_strip (p : ascii -> bool) (s : string) :
  all_chars p s = true → all_chars p (Py.strip s) = true.
Proof. intros H. by apply all_chars_rstrip, all_chars_lstrip. Qed.

Lemma occurs_in_refl_prefix (m rest : string) : occurs_in m (m +:+ rest).
Proof. exists "", rest. reflexivity. Qed.

Lemma occurs_in_cons (c : ascii) (m s : string) :
  occurs_in m s → occurs_in m (String c s).
Proof. intros (b & a & ->). exists (String c b), a. by rewrite app_cons. Qed.

Lemma all_chars_occurs (p : ascii -> bool) (m s : string) :
  occurs_in m s → all_chars p s = true → all_chars p m = true.
Proof.
  intros (b & a & ->). rewrite !all_chars_app.
  intros [_ [H _]%andb_true_iff]%andb_true_iff. done.
Qed.

(** ** [extract_email] *)

Section Email.

(** what has been read so far, as a prefix of the text and of the match *)
Lemma email_tld_spec (s m : string) :
  email_tld s = Some m →
  ∃ t rest, m = "." +:+ t ∧ s = m +:+ rest ∧
            all_chars Py.is_alpha_az t = true ∧ 2 ≤ String.length t.
Proof.
  destruct s as [|c s]; cbn [email_tld]; [done|].
  destruct (N.eqb_spec (Py.code c) 46) as [Hc|]; [|done].
  destruct (Nat.leb_spec 2 (String.length (Py.span Py.is_alpha_az s).1)) as [Hlen|];
    [|done].
  intros [= <-]. destruct (span_fst_spec Py.is_alpha_az s) as (rest & Hs & Hall).
  exists (fst (Py.span Py.is_alpha_az s)), rest.
  assert (c = "."%char) as ->.
  { unfold Py.code in Hc. rewrite <- (ascii_N_embedding c), Hc. reflexivity. }
  repeat split; try done. change ("." +:+ ?x) with (String "."%char x).
  rewrite app_cons. by rewrite <- Hs.
Qed.

Lemma email_domain_rest_spec (s m : string) :
  email_domain_rest s = Some m →
  ∃ d t rest, m = d +:+ "." +:+ t ∧ s = m +:+ rest ∧
              all_chars email_domain_char d = true ∧
              all_chars Py.is_alpha_az t = true ∧ 2 ≤ String.length t.
Proof.
  revert m. induction s as [|c s IH]; intros m; [done|].
  assert (email_tld (String c s) = Some m →
          ∃ d t rest, m = d +:+ "." +:+ t ∧ String c s = m +:+ rest ∧
                      all_chars email_domain_char d = true ∧
                      all_chars Py.is_alpha_az t = true ∧ 2 ≤ String.length t)
    as Htld.
  { intros (t & rest & -> & Hs & Ht & Hlen)%email_tld_spec.
    by exists "", t, rest. }
  cbn [email_domain_rest].
  destruct (email_domain_char c) eqn:Hc; [|done].
  destruct (email_domain_rest s) as [m'|] eqn:Hrest; [|done].
  intros [= <-]. destruct (IH m' eq_refl) as (d & t & rest & -> & Hs & Hd & Ht & Hlen).
  exists (String c d), t, rest. rewrite !app_cons. simpl. rewrite Hc.
  repeat split; try done. by rewrite Hs at 1.
Qed.

Lemma email_domain_spec (s m : string) :
  email_domain s = Some m →
  ∃ d t rest, m = d +:+ "." +:+ t ∧ s = m +:+ rest ∧
              in_class email_domain_char d = true ∧
              all_chars Py.is_alpha_az t = true ∧ 2 ≤ String.length t.
Proof.
  destruct s as [|c s]; cbn [email_domain]; [done|].
  destruct (email_domain_char c) eqn:Hc; [|done].
  destruct (email_domain_rest s) as [m'|] eqn:Hrest; [|done].
  intros [= <-].
  apply email_domain_rest_spec in Hrest as (d & t & rest & -> & Hs & Hd & Ht & Hlen).
  exists (String c d), t, rest. rewrite !app_cons. unfold in_class. simpl.
  rewrite Hc. repeat split; try done. by rewrite Hs at 1.
Qed.

Lemma email_at_spec (s m : string) :
  email_at s = Some m →
  ∃ d t rest, m = "@" +:+ d +:+ "." +:+ t ∧ s = m +:+ rest ∧
              in_class email_domain_char d = true ∧
              all_chars Py.is_alpha_az t = true ∧ 2 ≤ String.length t.
Proof.
  destruct s as [|c s]; cbn [email_at]; [done|].
  destruct (N.eqb_spec (Py.code c) 64) as [Hc|]; [|done].
  destruct (email_domain s) as [m'|] eqn:Hdom; [|done].
  intros [= <-].
  apply email_domain_spec in Hdom as (d & t & rest & -> & Hs & Hd & Ht & Hlen).
  assert (c = "@"%char) as ->.
  { unfold Py.code in Hc. rewrite <- (ascii_N_embedding c), Hc. reflexivity. }
  exists d, t, rest. repeat split; try done.
  change ("@" +:+ ?x) with (String "@"%char x). rewrite app_cons. by rewrite Hs at 1.
Qed.

Lemma email_local_rest_spec (s m : string) :
  email_local_rest s = Some m →
  ∃ l d t rest, m = l +:+ "@" +:+ d +:+ "." +:+ t ∧ s = m +:+ rest ∧
                all_chars email_local_char l = true ∧
                in_class email_domain_char d = true ∧
                all_chars Py.is_alpha_az t = true ∧ 2 ≤ String.length t.
Proof.
  revert m. induction s as [|c s IH]; intros m; [done|].
  assert (email_at (String c s) = Some m →
          ∃ l d t rest, m = l +:+ "@" +:+ d +:+ "." +:+ t ∧
                        String c s = m +:+ rest ∧
                        all_chars email_local_char l = true ∧
                        in_class email_domain_char d = true ∧
                        all_chars Py.is_alpha_az t = true ∧ 2 ≤ String.length t)
    as Hat.
  { intros (d & t & rest & -> & Hs & Hd & Ht & Hlen)%email_at_spec.
    by exists "", d, t, rest. }
  cbn [email_local_rest].
  destruct (email_local_char c) eqn:Hc; [|done].
  destruct (email_local_rest s) as [m'|] eqn:Hrest; [|done].
  intros [= <-].
  destruct (IH m' eq_refl) as (l & d & t & rest & -> & Hs & Hl & Hd & Ht & Hlen).
  exists (String c l), d, t, rest. rewrite !app_cons. simpl. rewrite Hc.
  repeat split; try done. by rewrite Hs at 1.
Qed.

Lemma email_match_spec (s m : string) :
  email_match s = Some m → email_shape m ∧ ∃ rest, s = m +:+ rest.
Proof.
  destruct s as [|c s]; cbn [email_match]; [done|].
  destruct (email_local_char c) eqn:Hc; [|done].
  destruct (email_local_rest s) as [m'|] eqn:Hrest; [|done].
  intros [= <-].
  apply email_local_rest_spec in Hrest
    as (l & d & t & rest & -> & Hs & Hl & Hd & Ht & Hlen).
  split.
  - exists (String c l), d, t. rewrite !app_cons. unfold in_class at 1. simpl.
    rewrite Hc. by repeat split.
  - exists rest. rewrite app_cons. by rewrite Hs at 1.
Qed.

Lemma email_search_spec (s m : string) :
  email_search s = Some m → email_shape m ∧ occurs_in m s.
Proof.
  induction s as [|c s IH]; cbn [email_search].
  - done.
  - destruct (email_match (String c s)) as [m'|] eqn:Hm.
    + intros [= <-]. apply email_match_spec in Hm as [Hshape [rest ->]].
      split; [done | apply occurs_in_refl_prefix].
    + intros [Hshape Hocc]%IH. split; [done | by apply occurs_in_cons].
Qed.

End Email.

(** X1: [extract_email] returns the empty string or a piece of the text of
    the form local@domain.tld (a non-empty local part and domain of the
    pattern's classes, a top-level part of at least two letters); a text
    without '@' yields the empty string. *)
Theorem extract_email_shape (text : string) :
  (extract_email text = "" ∨
   (email_shape (extract_email text) ∧ occurs_in (extract_email text) text)) ∧
  (all_chars not_at_sign text = true → extract_email text = "").
Proof.
  assert (extract_email text = "" ∨
          (email_shape (extract_email text) ∧ occurs_in (extract_email text) text))
    as Hshape.
  { unfold extract_email. destruct (negb (Py.truthy text)); [by left|].
    destruct (email_search text) as [m|] eqn:Hm; [right | by left].
    by apply email_search_spec. }
  split; [exact Hshape|].
  intros Hno. destruct Hshape as [Hempty|[(l & d & t & Hm & _) Hocc]]; [done|].
  exfalso. pose proof (all_chars_occurs _ _ _ Hocc Hno) as Hall.
  rewrite Hm, !all_chars_app in Hall.
  apply andb_true_iff in Hall as [_ [Hat _]%andb_true_iff]. discriminate Hat.
Qed.

(** an address in a sentence, and a text without '@' *)
Lemma extract_email_shape_witness :
  extract_email "Write to info@joes-cafe.co.uk. Thanks" = "info@joes-cafe.co.uk" ∧
  extract_email "no address here" = "".
Proof.
  split; [reflexivity|].
  apply (extract_email_shape "no address here"). reflexivity.
Defined.

(** ** [extract_phone_number] *)

Section Phone.

Lemma take_digits_spec (n : nat) :
  ∀ s d r, take_digits n s = Some (d, r) →
           s = d +:+ r ∧ all_chars Py.is_digit d = true ∧ String.length d = n.
Proof.
  induction n as [|n IH]; intros s d r; cbn [take_digits].
  - by intros [= <- <-].
  - destruct s as [|c s]; [done|].
    destruct (Py.is_digit c) eqn:Hc; [|done].
    destruct (take_digits n s) as [[d' r']|] eqn:Hn; [|done].
    intros [= <- <-]. destruct (IH s d' r' Hn) as (-> & Hd & Hlen).
    rewrite app_cons. simpl. by rewrite Hc, Hd, Hlen.
Qed.

Lemma take_optional_spec (p : ascii -> bool) (s x r : string) :
  take_optional p s = (x, r) →
  s = x +:+ r ∧ all_chars p x = true.
Proof.
  unfold take_optional. destruct s as [|c s]; [by intros [= <- <-]|].
  destruct (p c) eqn:Hc; intros [= <- <-]; simpl; by rewrite ?Hc.
Qed.

Lemma take_char_spec (k : N) (s x r : string) :
  take_char k s = Some (x, r) →
  s = x +:+ r ∧ String.length x = 1 ∧
  all_chars (fun c => (Py.code c =? k)%N) x = true.
Proof.
  unfold take_char. destruct s as [|c s]; [done|].
  destruct (Py.code c =? k)%N eqn:Hc; [|done].
  intros [= <- <-]. simpl. by rewrite Hc.
Qed.

Lemma phone_char_not_plus (c : ascii) :
  phone_char c = true → (Py.code c =? 43)%N = false.
Proof. destruct c as [[] [] [] [] [] [] [] []]; vm_compute; congruence. Qed.

Lemma digit_phone_char (c : ascii) : Py.is_digit c = true → phone_char c = true.
Proof. unfold phone_char. by intros ->. Qed.

Lemma sep_phone_char (c : ascii) : phone_sep c = true → phone_char c = true.
Proof. destruct c as [[] [] [] [] [] [] [] []]; vm_compute; congruence. Qed.

Lemma space_phone_char (c : ascii) : Py.is_space c = true → phone_char c = true.
Proof. unfold phone_char. intros ->. by rewrite orb_true_r. Qed.

Lemma paren_phone_char (k : N) (c : ascii) :
  k = 40%N ∨ k = 41%N → (Py.code c =? k)%N = true → phone_char c = true.
Proof.
  intros Hk Hc. apply N.eqb_eq in Hc. unfold phone_char. simpl.
  destruct Hk as [-> | ->]; rewrite Hc; simpl; by rewrite !orb_true_r.
Qed.

(** a run of at least ten characters of the first pattern's class at the
    head of a text is matched there by the first pattern *)
Lemma phone_pattern_1_run (m rest : string) :
  all_chars phone_char m = true → 10 ≤ String.length m →
  phone_pattern_1 (m +:+ rest) ≠ None.
Proof.
  intros Hall Hlen. pose proof (span_covers phone_char m rest Hall) as Hrun.
  destruct m as [|c m]; [simpl in Hlen; lia|].
  rewrite app_cons in *. cbn [phone_pattern_1].
  simpl in Hall. apply andb_true_iff in Hall as [Hc _].
  rewrite (phone_char_not_plus c Hc).
  destruct (Nat.leb_spec 10 (String.length (Py.span phone_char (String c (m +:+ rest))).1));
    [done | lia].
Qed.

Lemma phone_pattern_2_run (s m : string) :
  phone_pattern_2 s = Some m →
  ∃ rest, s = m +:+ rest ∧ all_chars phone_char m = true ∧ 10 ≤ String.length m.
Proof.
  unfold phone_pattern_2.
  destruct (take_digits 3 s) as [[a r1]|] eqn:Ha; [|done].
  destruct (take_optional phone_sep r1) as [x r2] eqn:Hx.
  destruct (take_digits 3 r2) as [[b r3]|] eqn:Hb; [|done].
  destruct (take_optional phone_sep r3) as [y r4] eqn:Hy.
  destruct (take_digits 4 r4) as [[d r5]|] eqn:Hd; [|done].
  intros [= <-].
  apply take_digits_spec in Ha as (-> & Ha & Hla), Hb as (-> & Hb & Hlb),
    Hd as (-> & Hd & Hld).
  apply take_optional_spec in Hx as (-> & Hx), Hy as (-> & Hy).
  exists r5. split; [by rewrite !app_assoc_s|]. split.
  - rewrite !all_chars_app.
    rewrite (all_chars_weaken _ _ a digit_phone_char Ha),
      (all_chars_weaken _ _ b digit_phone_char Hb),
      (all_chars_weaken _ _ d digit_phone_char Hd),
      (all_chars_weaken _ _ x sep_phone_char Hx),
      (all_chars_weaken _ _ y sep_phone_char Hy). done.
  - rewrite !app_length_s. lia.
Qed.

Lemma phone_pattern_3_run (s m : string) :
  phone_pattern_3 s = Some m →
  ∃ rest, s = m +:+ rest ∧ all_chars phone_char m = true ∧ 10 ≤ String.length m.
Proof.
  unfold phone_pattern_3.
  destruct (take_char 40 s) as [[o r0]|] eqn:Ho; [|done].
  destruct (take_digits 3 r0) as [[a r1]|] eqn:Ha; [|done].
  destruct (take_char 41 r1) as [[c r2]|] eqn:Hc; [|done].
  destruct (take_optional Py.is_space r2) as [x r3] eqn:Hx.
  destruct (take_digits 3 r3) as [[b r4]|] eqn:Hb; [|done].
  destruct (take_optional phone_sep r4) as [y r5] eqn:Hy.
  destruct (take_digits 4 r5) as [[d r6]|] eqn:Hd; [|done].
  intros [= <-].
  apply take_digits_spec in Ha as (-> & Ha & Hla), Hb as (-> & Hb & Hlb),
    Hd as (-> & Hd & Hld).
  apply take_optional_spec in Hx as (-> & Hx), Hy as (-> & Hy).
  apply take_char_spec in Ho as (-> & Hlo & Ho), Hc as (-> & Hlc & Hc).
  exists r6. split; [by rewrite !app_assoc_s|]. split.
  - rewrite !all_chars_app.
    rewrite (all_chars_weaken _ _ a digit_phone_char Ha),
      (all_chars_weaken _ _ b digit_phone_char Hb),
      (all_chars_weaken _ _ d digit_phone_char Hd),
      (all_chars_weaken _ _ x space_phone_char Hx),
      (all_chars_weaken _ _ y sep_phone_char Hy),
      (all_chars_weaken _ _ o (fun c => paren_phone_char 40 c (or_introl eq_refl)) Ho),
      (all_chars_weaken _ _ c (fun c => paren_phone_char 41 c (or_intror eq_refl)) Hc).
    done.
  - rewrite !app_length_s. lia.
Qed.

(** where a later pattern matches somewhere, the first one matches somewhere *)
Lemma re_search_covered (p q : string -> option string) (s : string) :
  (∀ t m, q t = Some m → p t ≠ None) →
  re_search q s ≠ None → re_search p s ≠ None.
Proof.
  intros Hcover. induction s as [|c s IH]; cbn [re_search].
  - destruct (q "") as [m|] eqn:Hq; [|done].
    intros _. specialize (Hcover "" m Hq). by destruct (p "").
  - destruct (q (String c s)) as [m|] eqn:Hq.
    + intros _. specialize (Hcover _ m Hq). by destruct (p (String c s)).
    + intros Hs. destruct (p (String c s)); [done|]. by apply IH.
Qed.

Lemma phone_pattern_1_chars (s m : string) :
  phone_pattern_1 s = Some m → all_chars phone_or_plus m = true.
Proof.
  assert (∀ t, all_chars phone_or_plus (Py.span phone_char t).1 = true) as Hrun.
  { intros t. destruct (span_fst_spec phone_char t) as (rest & _ & Hall).
    eapply all_chars_weaken; [|exact Hall].
    intros c Hc. unfold phone_or_plus. by rewrite Hc. }
  unfold phone_pattern_1. destruct s as [|c s]; [done|].
  destruct (Py.code c =? 43)%N eqn:Hc.
  - destruct (10 <=? _); [|done]. intros [= <-]. simpl.
    unfold phone_or_plus at 1. by rewrite Hc, orb_true_r, Hrun.
  - destruct (10 <=? _); [|done]. intros [= <-]. exact (Hrun (String c s)).
Qed.

Lemma re_search_found (p : string -> option string) (s m : string) :
  re_search p s = Some m → ∃ t, p t = Some m.
Proof.
  induction s as [|c s IH]; cbn [re_search].
  - destruct (p "") eqn:Hp; [|done]. intros [= <-]. by exists "".
  - destruct (p (String c s)) eqn:Hp.
    + intros [= <-]. by exists (String c s).
    + apply IH.
Qed.

End Phone.

(** ** Trimming twice *)

Lemma rstrip_idem (s : string) : Py.rstrip (Py.rstrip s) = Py.rstrip s.
Proof.
  induction s as [|c s IH]; [reflexivity|]. cbn [Py.rstrip].
  destruct (Py.is_space c && negb (Py.truthy (Py.rstrip s))) eqn:Hdrop;
    [reflexivity|].
  cbn [Py.rstrip]. by rewrite IH, Hdrop.
Qed.

Lemma lstrip_head (s : string) :
  match Py.lstrip s with
  | EmptyString => True
  | String c _ => Py.is_space c = false
  end.
Proof.
  induction s as [|c s IH]; simpl; [done|].
  destruct (Py.is_space c) eqn:Hc; [exact IH | exact Hc].
Qed.

Lemma lstrip_rstrip_head (s : string) :
  match s with
  | EmptyString => True
  | String c _ => Py.is_space c = false
  end →
  Py.lstrip (Py.rstrip s) = Py.rstrip s.
Proof.
  destruct s as [|c s]; [reflexivity|]. intros Hc.
  cbn [Py.rstrip]. rewrite Hc. cbn [andb Py.lstrip]. by rewrite Hc.
Qed.

Lemma strip_idem (s : string) : Py.strip (Py.strip s) = Py.strip s.
Proof.
  unfold Py.strip.
  rewrite (lstrip_rstrip_head (Py.lstrip s) (lstrip_head s)).
  apply rstrip_idem.
Qed.

(** X2: [extract_phone_number] is decided by its first pattern alone: it
    returns the trimmed leftmost run of at least ten digits, spaces, '-',
    '(' and ')', with its leading '+' if it has one, and the empty string when
    there is no such run; the second and third patterns never give the
    result.  What it returns holds only those characters and is trimmed. *)
Theorem extract_phone_number_first_pattern (text : string) :
  extract_phone_number text =
    match re_search phone_pattern_1 text with
    | Some m => Py.strip m
    | None => ""
    end ∧
  all_chars phone_or_plus (extract_phone_number text) = true ∧
  Py.strip (extract_phone_number text) = extract_phone_number text.
Proof.
  assert (extract_phone_number text =
          match re_search phone_pattern_1 text with
          | Some m => Py.strip m
          | None => ""
          end) as Hfirst.
  { unfold extract_phone_number.
    destruct text as [|c text]; [reflexivity|]. cbn [Py.truthy negb].
    cbn [first_hit phone_patterns].
    destruct (re_search phone_pattern_1 (String c text)) as [m|] eqn:H1;
      [reflexivity|].
    destruct (re_search phone_pattern_2 (String c text)) as [m|] eqn:H2.
    { exfalso. apply (re_search_covered phone_pattern_1 phone_pattern_2
                        (String c text)); [|by rewrite H2|exact H1].
      intros t m' (rest & -> & Hall & Hlen)%phone_pattern_2_run.
      by apply phone_pattern_1_run. }
    destruct (re_search phone_pattern_3 (String c text)) as [m|] eqn:H3;
      [|reflexivity].
    exfalso. apply (re_search_covered phone_pattern_1 phone_pattern_3
                      (String c text)); [|by rewrite H3|exact H1].
    intros t m' (rest & -> & Hall & Hlen)%phone_pattern_3_run.
    by apply phone_pattern_1_run. }
  split; [exact Hfirst|]. rewrite Hfirst.
  destruct (re_search phone_pattern_1 text) as [m|] eqn:Hm; [|by split].
  split; [|apply strip_idem].
  apply all_chars_strip. apply re_search_found in Hm as [t Ht].
  by eapply phone_pattern_1_chars.
Qed.

(** ** [maps_url] *)

Lemma replace_space_cons (c : ascii) (t : string) :
  Py.replace " " "+" (String c t) =
  String (plus_for_space c) (Py.replace " " "+" t).
Proof.
  unfold Py.replace, plus_for_space. cbn [Py.replace_go String.prefix].
  destruct (ascii_dec " " c) as [<-|Hne].
  - destruct t; reflexivity.
  - destruct (N.eqb_spec (Py.code c) 32) as [Heq|_]; [|reflexivity].
    exfalso. apply Hne. unfold Py.code in Heq.
    rewrite <- (ascii_N_embedding c), Heq. reflexivity.
Qed.

Lemma replace_space_map (t : string) :
  Py.replace " " "+" t = map_chars plus_for_space t.
Proof.
  induction t as [|c t IH]; [reflexivity|].
  rewrite replace_space_cons. simpl. by rewrite IH.
Qed.

Lemma map_chars_no_blank (t : string) :
  all_chars not_blank (map_chars plus_for_space t) = true.
Proof.
  induction t as [|c t IH]; [reflexivity|]. simpl. rewrite IH, andb_true_r.
  unfold plus_for_space, not_blank.
  destruct (Py.code c =? 32)%N eqn:Hc; [reflexivity|]. by rewrite Hc.
Qed.

Lemma map_chars_length (f : ascii -> ascii) (t : string) :
  String.length (map_chars f t) = String.length t.
Proof. induction t as [|c t IH]; [reflexivity|]. simpl. by rewrite IH. Qed.

(** X3: the query URL is the fixed search prefix followed by
    "<keyword> in <city>, <country>" in which every space has become '+' and
    every other character stands as it was (nothing is percent-encoded); it
    holds no space. *)
Theorem maps_url_replaces_spaces_only (keyword city country : string) :
  maps_url keyword city country =
    "https://www.google.com/maps/search/" +:+
    map_chars plus_for_space (keyword +:+ " in " +:+ city +:+ ", " +:+ country) ∧
  all_chars not_blank (maps_url keyword city country) = true ∧
  String.length (maps_url keyword city country) =
    41 + String.length keyword + String.length city + String.length country.
Proof.
  unfold maps_url, search_query. rewrite replace_space_map.
  split; [reflexivity|]. split.
  - rewrite all_chars_app, map_chars_no_blank. reflexivity.
  - rewrite app_length_s, map_chars_length, !app_length_s. simpl. lia.
Qed.

(** ** The lead of a detail view: keys and trimmed text *)

Section LeadFields.

Ltac in_columns :=
  unfold lead_columns;
  repeat first [apply list_elem_of_here | apply list_elem_of_further].

Lemma dom_set_if (k : string) (v : option string) (lead : Lead) :
  k ∈ dom lead → dom (set_if k v lead) = dom lead.
Proof.
  intros Hk. unfold set_if. destruct v; [|reflexivity].
  rewrite dom_insert_L. apply set_eq. intros x.
  rewrite elem_of_union, elem_of_singleton. split; [|tauto].
  intros [->|]; done.
Qed.

Lemma dom_insert_present (k v : string) (lead : Lead) :
  k ∈ dom lead → dom (<[k := v]> lead) = dom lead.
Proof. intros Hk. apply (dom_set_if k (Some v) lead Hk). Qed.

Lemma dom_set_phone (v : option string) (lead : Lead) :
  "Phone" ∈ dom lead → "WhatsApp Link" ∈ dom lead →
  dom (set_phone v lead) = dom lead.
Proof.
  intros Hp Hw. unfold set_phone. destruct v; [|reflexivity].
  rewrite dom_insert_present; rewrite dom_insert_present; done.
Qed.

Lemma dom_empty_lead : dom empty_lead = lead_keys.
Proof.
  unfold empty_lead, lead_keys, lead_columns. rewrite !dom_insert_L, dom_empty_L.
  apply set_eq. intros x. cbn [list_to_set foldr].
  rewrite !elem_of_union, !elem_of_singleton. tauto.
Qed.

Lemma lead_keys_elem (k : string) : k ∈ lead_columns → k ∈ lead_keys.
Proof. intros Hk. by apply elem_of_list_to_set. Qed.

Lemma dom_set_if_keys (k : string) (v : option string) (lead : Lead) :
  k ∈ lead_columns → dom lead = lead_keys → dom (set_if k v lead) = lead_keys.
Proof.
  intros Hk Hdom. rewrite dom_set_if; [done|]. rewrite Hdom. by apply lead_keys_elem.
Qed.

Lemma dom_set_phone_keys (v : option string) (lead : Lead) :
  dom lead = lead_keys → dom (set_phone v lead) = lead_keys.
Proof.
  intros Hdom. rewrite dom_set_phone; [done|..]; rewrite Hdom;
    apply lead_keys_elem; in_columns.
Qed.

Lemma dom_extract (driver : DetailView) :
  dom (extract_business_details driver) = lead_keys.
Proof.
  unfold extract_business_details.
  repeat (apply dom_set_if_keys; [in_columns|]).
  apply dom_set_phone_keys.
  repeat (apply dom_set_if_keys; [in_columns|]).
  apply dom_empty_lead.
Qed.

Lemma dom_with_card_name (business_name : string) (lead : Lead) :
  dom lead = lead_keys → dom (with_card_name business_name lead) = lead_keys.
Proof.
  intros Hdom. unfold with_card_name. destruct (_ && _); [|done].
  rewrite dom_insert_present; [done|]. rewrite Hdom.
  apply lead_keys_elem. in_columns.
Qed.

Lemma iterate_cards_keys (s : Session) (n : nat) (lead : Lead) :
  lead ∈ leads (snd (iterate_cards s n)) → dom lead = lead_keys.
Proof.
  induction n as [|n IH]; [intros H; inversion H|].
  destruct (iterate_cards_step s n) as [->|[_ ->]]; [done|].
  destruct (visit_card_cases s n (snd (iterate_cards s n)))
    as [->|(cards & card & label & _ & _ & _ & _ & [->|(view & _ & _ & ->)])];
    simpl; try done.
  intros [Hin| ->%list_elem_of_singleton]%elem_of_app; [by apply IH|].
  apply dom_with_card_name, dom_extract.
Qed.

Lemma extract_name_field (driver : DetailView) :
  field (extract_business_details driver) "Business Name" =
  default "" (first_hit (try_name driver) name_selectors).
Proof.
  unfold extract_business_details.
  rewrite !field_set_if_ne by discriminate.
  rewrite field_set_phone_other by discriminate.
  rewrite field_set_if_ne by discriminate.
  rewrite field_set_if_eq.
  rewrite field_set_if_ne by discriminate. reflexivity.
Qed.

Lemma extract_address_field (driver : DetailView) :
  field (extract_business_details driver) "Address" =
  default "" (first_hit (try_labelled "Address: " driver) address_selectors).
Proof.
  unfold extract_business_details.
  rewrite !field_set_if_ne by discriminate.
  rewrite field_set_phone_other by discriminate.
  rewrite field_set_if_eq.
  rewrite !field_set_if_ne by discriminate. reflexivity.
Qed.

Lemma extract_rating_field (driver : DetailView) :
  field (extract_business_details driver) "Rating" =
  default "" (page_rating driver).
Proof.
  unfold extract_business_details.
  rewrite field_set_if_ne by discriminate.
  rewrite field_set_if_eq.
  rewrite !field_set_if_ne by discriminate.
  rewrite field_set_phone_other by discriminate.
  rewrite !field_set_if_ne by discriminate. reflexivity.
Qed.

Lemma first_hit_trimmed {A : Type} (f : A -> option string) (xs : list A) :
  (∀ x t, f x = Some t → Py.strip t = t) →
  Py.strip (default "" (first_hit f xs)) = default "" (first_hit f xs).
Proof.
  intros Hf. destruct (first_hit f xs) as [t|] eqn:Hhit; [|reflexivity].
  apply first_hit_Some in Hhit as (x & _ & Hx). simpl. by eapply Hf.
Qed.

Lemma try_name_trimmed (driver : DetailView) (selector t : string) :
  try_name driver selector = Some t → Py.strip t = t.
Proof.
  unfold try_name. destruct (safe_find_element driver selector); [|done].
  destruct (Py.truthy _); [|done]. intros [= <-]. apply strip_idem.
Qed.

Lemma try_labelled_trimmed (prefix : string) (driver : DetailView)
    (selector t : string) :
  try_labelled prefix driver selector = Some t → Py.strip t = t.
Proof.
  unfold try_labelled. destruct (safe_find_element driver selector); [|done].
  destruct (text_or_label _); [|done]. intros [= <-]. apply strip_idem.
Qed.

End LeadFields.

(** X4: the lead built from any detail view has exactly the nine keys of
    the lead table, and so has every lead [scrape_google_maps] returns. *)
Theorem leads_have_the_nine_keys :
  (∀ driver : DetailView, dom (extract_business_details driver) = lead_keys) ∧
  (∀ fuel keyword city country max_results (s : Session) (found : list Lead)
     (lead : Lead),
     scrape_google_maps fuel keyword city country max_results s
       = Some (Return found) →
     lead ∈ found → dom lead = lead_keys).
Proof.
  split; [apply dom_extract|].
  intros fuel keyword city country max_results s found lead Hrun Hin.
  apply scrape_google_maps_run in Hrun as (r & Hrun & ->).
  apply scrape_run_cases in Hrun as [->|[n ->]]; [inversion Hin|].
  by eapply iterate_cards_keys.
Qed.

(** the second lead of [repeat_session] *)
Lemma leads_have_the_nine_keys_witness : dom bun_house = lead_keys.
Proof.
  assert (scrape_google_maps 30 "Bakery" "Leeds" "UK" 10 repeat_session
          = Some (Return repeat_leads)) as Hrun by by_evaluation.
  assert (bun_house ∈ repeat_leads) as Hin
    by by_evaluation.
  exact (proj2 leads_have_the_nine_keys _ _ _ _ _ _ _ _ Hrun Hin).
Defined.

(** X5: the name, address, phone and rating of the lead of a detail view
    carry no leading or trailing whitespace: trimming them changes nothing. *)
Theorem extracted_text_is_trimmed (driver : DetailView) :
  let lead := extract_business_details driver in
  Py.strip (field lead "Business Name") = field lead "Business Name" ∧
  Py.strip (field lead "Address") = field lead "Address" ∧
  Py.strip (field lead "Phone") = field lead "Phone" ∧
  Py.strip (field lead "Rating") = field lead "Rating".
Proof.
  cbv zeta.
  rewrite extract_name_field, extract_address_field, extract_phone_field,
    extract_rating_field.
  split; [|split; [|split]].
  - apply first_hit_trimmed, try_name_trimmed.
  - apply first_hit_trimmed, try_labelled_trimmed.
  - apply first_hit_trimmed, try_labelled_trimmed.
  - unfold page_rating. destruct (safe_find_element _ _); [|reflexivity].
    destruct (Py.truthy _); [|reflexivity]. simpl. apply strip_idem.
Qed.

(** ** The scroller when the count keeps changing *)

(** X6: the stall cap does not bound the scroller: when every poll shows a
    count different from the one before and below the target, the loop is
    still running after any number of iterations. *)
Theorem scroll_never_ends_on_changing_count (items : nat -> list Card)
    (max_results : Z) :
  (∀ k, length (items k) ≠ previous_count items k) →
  (∀ k, (Z.of_nat (length (items k)) < max_results)%Z) →
  ∀ fuel, scroll_results_panel fuel (always_found items) max_results = None.
Proof.
  intros Hchange Hshort fuel. unfold scroll_results_panel.
  change 0 with (previous_count items 0) at 2.
  rewrite scroll_loop_restless; [reflexivity | done | done | lia].
Qed.

(** a list that shows one card and two cards in turn, with a target of ten *)
Lemma scroll_never_ends_on_changing_count_witness :
  ¬ ∃ fuel out, scroll_results_panel fuel (always_found flickering) 10 = Some out.
Proof.
  intros (fuel & out & Hrun).
  rewrite (scroll_never_ends_on_changing_count flickering 10) in Hrun;
    [discriminate Hrun| |].
  - intros [|k]; [simpl; lia|]. unfold previous_count, flickering.
    rewrite Nat.even_succ, <- Nat.negb_even.
    destruct (Nat.even k); simpl; lia.
  - intros k. unfold flickering. destruct (Nat.even k); simpl; lia.
Defined.

(** ** The card loop: how many leads, from which cards *)

Section CardLoopCounts.

Variable s : Session.

Lemma iterate_cards_leads_le_opened (n : nat) :
  length (leads (snd (iterate_cards s n))) ≤
  length (opened (snd (iterate_cards s n))).
Proof.
  induction n as [|n IH]; [simpl; lia|].
  destruct (iterate_cards_step s n) as [->|[_ ->]]; [done|].
  destruct (visit_card_cases s n (snd (iterate_cards s n)))
    as [->|(cards & card & label & _ & _ & _ & _ & [->|(view & _ & _ & ->)])];
    simpl; rewrite ?length_app; simpl; lia.
Qed.

Lemma iterate_cards_opened_le (n : nat) :
  length (opened (snd (iterate_cards s n))) ≤ n.
Proof.
  induction n as [|n IH]; [simpl; lia|].
  destruct (iterate_cards_step s n) as [->|[_ ->]]; [lia|].
  destruct (visit_card_cases s n (snd (iterate_cards s n)))
    as [->|(cards & card & label & _ & _ & _ & _ & [->|(view & _ & _ & ->)])];
    simpl; rewrite ?length_app; simpl; lia.
Qed.

Lemma rising_snoc (l : list nat) (n : nat) :
  rising l → (∀ a, a ∈ l → a < n) → rising (l ++ [n]).
Proof.
  intros Hl Hlt i j a b Hi Hj Hij.
  destruct (decide (j < length l)) as [Hjl|Hjl].
  - rewrite lookup_app_l in Hi, Hj by lia. by eapply Hl.
  - rewrite lookup_app_r in Hj by lia.
    destruct (j - length l) as [|?] eqn:Hd; simpl in Hj; [|done].
    injection Hj as <-. rewrite lookup_app_l in Hi by lia.
    apply Hlt. by eapply list_elem_of_lookup_2.
Qed.

Lemma iterate_cards_rising (n : nat) : rising (opened (snd (iterate_cards s n))).
Proof.
  induction n as [|n IH]; [intros i j a b H; inversion H|].
  destruct (iterate_cards_step s n) as [->|[_ ->]]; [done|].
  destruct (visit_card_cases s n (snd (iterate_cards s n)))
    as [->|(cards & card & label & _ & _ & _ & _ & [->|(view & _ & _ & ->)])];
    simpl; try done;
    (apply rising_snoc; [done | intros a Ha; by apply (iterate_cards_opened_lt s n)]).
Qed.

(** every lead comes from the detail view of a card the loop has listed *)
Lemma iterate_cards_provenance (n : nat) (lead : Lead) :
  lead ∈ leads (snd (iterate_cards s n)) →
  ∃ idx cards card aria_label view,
    idx < n ∧ listing s idx = Return cards ∧ cards !! idx = Some card ∧
    link_label card = Some aria_label ∧ on_click card = Opens view ∧
    lead = lead_of_card aria_label view.
Proof.
  induction n as [|n IH]; [intros H; inversion H|].
  assert (lead ∈ leads (snd (iterate_cards s n)) →
          ∃ idx cards card aria_label view,
            idx < S n ∧ listing s idx = Return cards ∧ cards !! idx = Some card ∧
            link_label card = Some aria_label ∧ on_click card = Opens view ∧
            lead = lead_of_card aria_label view) as Hold.
  { intros (idx & cards & card & label & view & Hlt & H)%IH.
    exists idx, cards, card, label, view. split; [lia | done]. }
  destruct (iterate_cards_step s n) as [->|[_ ->]]; [done|].
  destruct (visit_card_cases s n (snd (iterate_cards s n)))
    as [->|(cards & card & label & Hlist & Hcard & Hlink & _ &
            [->|(view & Hclick & _ & ->)])];
    simpl; try done.
  intros [Hin| ->%list_elem_of_singleton]%elem_of_app; [by apply Hold|].
  exists n, cards, card, label, view. split; [lia | done].
Qed.

End CardLoopCounts.

Lemma scrape_run_total fuel keyword city country max_results (s : Session) (r : Run) :
  scrape_run fuel keyword city country max_results s = Some (Return r) →
  r = start ∨
  ∃ cards, loaded s = Return cards ∧
           r = snd (iterate_cards s
                      (Z.to_nat (Z.min (Z.of_nat (length cards)) max_results))).
Proof.
  unfold scrape_run. intros H.
  repeat match type of H with
         | match ?x with _ => _ end = _ => destruct x eqn:?; try discriminate
         | (if ?b then _ else _) = _ => destruct b
         end;
  injection H as <-; eauto.
Qed.

Lemma scrape_found_bounded fuel keyword city country max_results
    (s : Session) (found : list Lead) :
  scrape_google_maps fuel keyword city country max_results s = Some (Return found) →
  length found ≤ Z.to_nat max_results ∧
  (∀ cards, loaded s = Return cards → length found ≤ length cards).
Proof.
  intros (r & Hrun & ->)%scrape_google_maps_run.
  apply scrape_run_total in Hrun as [->|(cards & Hloaded & ->)].
  - split; [simpl; lia|]. intros cards _. simpl. lia.
  - pose proof (iterate_cards_leads_le_opened s
                  (Z.to_nat (Z.min (Z.of_nat (length cards)) max_results))).
    pose proof (iterate_cards_opened_le s
                  (Z.to_nat (Z.min (Z.of_nat (length cards)) max_results))).
    split; [lia|]. intros cards' Hloaded'. rewrite Hloaded in Hloaded'.
    injection Hloaded' as <-. lia.
Qed.

(** X7: a run never returns more leads than [max_results] (none when
    [max_results] is not positive), nor more than the cards loaded after
    scrolling. *)
Theorem scrape_returns_at_most_max_results fuel keyword city country max_results
    (s : Session) (found : list Lead) :
  scrape_google_maps fuel keyword city country max_results s = Some (Return found) →
  length found ≤ Z.to_nat max_results ∧
  (∀ cards, loaded s = Return cards → length found ≤ length cards).
Proof. apply scrape_found_bounded. Qed.

(** [repeat_session] with a target of two *)
Lemma scrape_returns_at_most_max_results_witness :
  length (leads (snd (iterate_cards repeat_session 2))) ≤ Z.to_nat 2.
Proof.
  assert (scrape_google_maps 30 "Bakery" "Leeds" "UK" 2 repeat_session
          = Some (Return (leads (snd (iterate_cards repeat_session 2))))) as Hrun
    by by_evaluation.
  exact (proj1 (scrape_returns_at_most_max_results _ _ _ _ _ _ _ Hrun)).
Defined.

(** X8: a run clicks cards in rising index order, each at most once, and
    records at most one lead per click. *)
Theorem scrape_clicks_each_card_once fuel keyword city country max_results
    (s : Session) (r : Run) :
  scrape_run fuel keyword city country max_results s = Some (Return r) →
  rising (opened r) ∧ NoDup (opened r) ∧ length (leads r) ≤ length (opened r).
Proof.
  intros [->|[n ->]]%scrape_run_cases.
  - split; [intros i j a b H; inversion H|]. split; [constructor | simpl; lia].
  - pose proof (iterate_cards_rising s n) as Hrise.
    split; [done|]. split; [|apply iterate_cards_leads_le_opened].
    apply NoDup_alt. intros i j a Hi Hj.
    destruct (Nat.lt_trichotomy i j) as [Hlt|[Heq|Hgt]]; [|done|].
    + specialize (Hrise i j a a Hi Hj Hlt). lia.
    + specialize (Hrise j i a a Hj Hi Hgt). lia.
Qed.

(** the clicks of [repeat_session] *)
Lemma scrape_clicks_each_card_once_witness :
  NoDup (opened (snd (iterate_cards repeat_session 3))).
Proof.
  assert (scrape_run 30 "Bakery" "Leeds" "UK" 10 repeat_session =
          Some (Return (snd (iterate_cards repeat_session 3)))) as Hrun
    by (vm_compute; reflexivity).
  apply (scrape_clicks_each_card_once _ _ _ _ _ _ _ Hrun).
Defined.

(** X9: every lead a run returns is the lead of the detail view that a click
    on a listed card opened, named after the card where the view shows no
    name, and that card stands at an index below [max_results]. *)
Theorem scrape_leads_come_from_cards fuel keyword city country max_results
    (s : Session) (found : list Lead) (lead : Lead) :
  scrape_google_maps fuel keyword city country max_results s = Some (Return found) →
  lead ∈ found →
  ∃ idx cards card aria_label view,
    (Z.of_nat idx < max_results)%Z ∧
    listing s idx = Return cards ∧ cards !! idx = Some card ∧
    link_label card = Some aria_label ∧ on_click card = Opens view ∧
    lead = lead_of_card aria_label view.
Proof.
  intros (r & Hrun & ->)%scrape_google_maps_run Hin.
  apply scrape_run_total in Hrun as [->|(cards & Hloaded & ->)]; [inversion Hin|].
  apply iterate_cards_provenance in Hin
    as (idx & cs & card & label & view & Hlt & H).
  exists idx, cs, card, label, view. split; [lia | done].
Qed.

(** the second lead of [repeat_session] *)
Lemma scrape_leads_come_from_cards_witness :
  ∃ idx cards card aria_label view,
    (Z.of_nat idx < 10)%Z ∧
    listing repeat_session idx = Return cards ∧ cards !! idx = Some card ∧
    link_label card = Some aria_label ∧ on_click card = Opens view ∧
    bun_house = lead_of_card aria_label view.
Proof.
  assert (scrape_google_maps 30 "Bakery" "Leeds" "UK" 10 repeat_session
          = Some (Return repeat_leads)) as Hrun by by_evaluation.
  assert (bun_house ∈ repeat_leads) as Hin
    by by_evaluation.
  exact (scrape_leads_come_from_cards _ _ _ _ _ _ _ _ Hrun Hin).
Defined.

(** ** The bulk runner: what it returns *)

Section Bulk.

Variables (fuel : nat) (max_results : Z) (sessions : nat -> Session).

Lemma bulk_step_cases (idx : nat) (search : gmap string string)
    (all_leads out : list Lead) :
  bulk_step fuel max_results sessions idx search all_leads = Some (Return out) →
  out = all_leads ∨
  ∃ found,
    scrape_google_maps fuel (field search "keyword") (field search "city")
      (field search "country") max_results (sessions idx) = Some (Return found) ∧
    out = all_leads ++ map (tag_query search) found.
Proof.
  unfold bulk_step.
  destruct (scrape_google_maps _ _ _ _ _ _) as [[found|e]|]; [| |done].
  - intros [= <-]. right. by exists found.
  - intros [= <-]. by left.
Qed.

Lemma bulk_step_returns (idx : nat) (search : gmap string string)
    (all_leads : list Lead) (e : Exn) :
  bulk_step fuel max_results sessions idx search all_leads ≠ Some (Raise e).
Proof.
  unfold bulk_step. by destruct (scrape_google_maps _ _ _ _ _ _) as [[found|e']|].
Qed.


Lemma bulk_loop_length (searches : list (gmap string string)) :
  ∀ idx all_leads out,
    bulk_loop fuel max_results sessions idx searches all_leads = Some (Return out) →
    length out ≤ length all_leads + length searches * Z.to_nat max_results.
Proof.
  induction searches as [|search rest IH]; intros idx all_leads out;
    cbn [bulk_loop].
  - intros [= <-]. simpl. lia.
  - destruct (bulk_step fuel max_results sessions idx search all_leads)
      as [[acc|e]|] eqn:Hstep; [|done..].
    intros Hrest%IH.
    apply bulk_step_cases in Hstep as [->|(found & Hrun & ->)]; [simpl; lia|].
    apply scrape_found_bounded in Hrun as [Hmax _].
    rewrite length_app, length_map in Hrest. simpl. lia.
Qed.

End Bulk.




(** X11: a bulk run returns at most [max_results] leads per search. *)
Theorem bulk_returns_at_most_max_per_search fuel
    (searches : list (gmap string string)) max_results sessions (out : list Lead) :
  scrape_bulk_searches fuel searches max_results sessions = Some (Return out) →
  length out ≤ length searches * Z.to_nat max_results.
Proof.
  unfold scrape_bulk_searches. intros Hrun%bulk_loop_length. simpl in Hrun. lia.
Qed.

(** two searches with a target of ten *)
Lemma bulk_returns_at_most_max_per_search_witness :
  length bakery_leads ≤ length two_searches * Z.to_nat 10.
Proof.
  assert (scrape_bulk_searches 30 two_searches 10 two_sessions
          = Some (Return bakery_leads)) as Hrun by by_evaluation.
  exact (bulk_returns_at_most_max_per_search _ _ _ _ _ Hrun).
Defined.

(** ** Deduplication: fixed points and batches *)

Section DedupMore.

Implicit Types (seen : gset (string * string)) (lead : Lead) (L : list Lead).

Lemma dedup_loop_fixed seen L :
  (∀ lead, lead ∈ L → named lead = true) →
  NoDup (map dedup_key L) →
  (∀ lead, lead ∈ L → dedup_key lead ∉ seen) →
  dedup_loop seen L = L.
Proof.
  revert seen. induction L as [|x L IH]; intros seen Hnamed Hdup Hnew;
    [reflexivity|].
  cbn [dedup_loop]. cbn [map] in Hdup. apply NoDup_cons in Hdup as [Hx Hdup].
  pose proof (Hnamed x (list_elem_of_here _ _)) as Hn. unfold named in Hn.
  rewrite Hn, (bool_decide_eq_false_2 _ (Hnew x (list_elem_of_here _ _))).
  cbn [andb negb]. f_equal. apply IH; [|done|].
  - intros lead Hin. apply Hnamed. by apply list_elem_of_further.
  - intros lead Hin. rewrite elem_of_union, elem_of_singleton.
    intros [Hs|Hk].
    + exact (Hnew lead (list_elem_of_further _ _ _ Hin) Hs).
    + apply Hx. rewrite <- Hk. apply list_elem_of_fmap. by exists lead.
Qed.

Lemma dedup_loop_app seen L1 L2 :
  dedup_loop seen (L1 ++ L2) =
  dedup_loop seen L1 ++ dedup_loop (seen_after seen L1) L2.
Proof.
  revert seen. induction L1 as [|x L1 IH]; intros seen; [reflexivity|].
  cbn [app dedup_loop seen_after].
  destruct (Py.truthy (dedup_key x).1 && negb _); [|apply IH].
  cbn [app]. f_equal. apply IH.
Qed.

Lemma seen_after_dedup seen L :
  seen_after seen (dedup_loop seen L) = seen_after seen L.
Proof.
  revert seen. induction L as [|x L IH]; intros seen; [reflexivity|].
  cbn [dedup_loop seen_after].
  destruct (Py.truthy (dedup_key x).1 && negb _) eqn:Hx; [|apply IH].
  cbn [seen_after]. rewrite Hx. apply IH.
Qed.

(** the loop over an already deduplicated list, with more keys seen *)
Lemma dedup_loop_twice (K S : gset (string * string)) L :
  dedup_loop K (dedup_loop S L) = dedup_loop (K ∪ S) L.
Proof.
  revert K S. induction L as [|x L IH]; intros K S; [reflexivity|].
  cbn [dedup_loop].
  destruct (Py.truthy (dedup_key x).1) eqn:Hn; cbn [andb]; [|apply IH].
  destruct (decide (dedup_key x ∈ S)) as [HS|HS].
  - rewrite (bool_decide_eq_true_2 _ HS).
    rewrite (bool_decide_eq_true_2 (dedup_key x ∈ K ∪ S))
      by (apply elem_of_union; by right).
    cbn [negb]. apply IH.
  - rewrite (bool_decide_eq_false_2 _ HS). cbn [negb dedup_loop]. rewrite Hn.
    cbn [andb]. destruct (decide (dedup_key x ∈ K)) as [HK|HK].
    + rewrite (bool_decide_eq_true_2 _ HK).
      rewrite (bool_decide_eq_true_2 (dedup_key x ∈ K ∪ S))
        by (apply elem_of_union; by left).
      cbn [negb]. rewrite IH. f_equal. apply set_eq. intros y.
      rewrite !elem_of_union, elem_of_singleton.
      split; [|tauto]. intros [?|[?| ->]]; tauto.
    + rewrite (bool_decide_eq_false_2 _ HK).
      rewrite (bool_decide_eq_false_2 (dedup_key x ∈ K ∪ S))
        by (rewrite elem_of_union; tauto).
      cbn [negb]. f_equal. rewrite IH. f_equal. apply set_eq. intros y.
      rewrite !elem_of_union, !elem_of_singleton. tauto.
Qed.

Lemma NoDup_keys_collide L :
  NoDup (map dedup_key L) ↔
  ∀ i j a b, L !! i = Some a → L !! j = Some b → collide a b → i = j.
Proof.
  rewrite NoDup_alt. split.
  - intros Hdup i j a b Hi Hj Hab%dedup_key_collide.
    apply (Hdup i j (dedup_key a)).
    + by rewrite list_lookup_fmap, Hi.
    + by rewrite list_lookup_fmap, Hj, Hab.
  - intros Hdup i j k Hi Hj. rewrite list_lookup_fmap in Hi, Hj.
    destruct (L !! i) as [a|] eqn:Ha; [|discriminate].
    destruct (L !! j) as [b|] eqn:Hb; [|discriminate].
    injection Hi as Hi. injection Hj as Hj.
    apply (Hdup i j a b Ha Hb). apply dedup_key_collide. congruence.
Qed.

End DedupMore.

(** X12: [deduplicate_leads] leaves a list as it is exactly when every lead
    in it keeps a name after lowercasing and trimming and no two of its
    leads collide. *)
Theorem deduplicate_leads_fixed_point (L : list Lead) :
  deduplicate_leads L = L ↔
  (∀ lead, lead ∈ L → Py.truthy (trimmed_lower "Business Name" lead) = true) ∧
  (∀ i j a b, L !! i = Some a → L !! j = Some b → collide a b → i = j).
Proof.
  rewrite <- NoDup_keys_collide. split.
  - intros Hfix. split.
    + intros lead Hin. rewrite <- Hfix in Hin. by apply dedup_loop_named in Hin.
    + rewrite <- Hfix. apply dedup_loop_keys_NoDup.
  - intros [Hnamed Hdup]. apply dedup_loop_fixed; [done..|].
    intros lead _. apply not_elem_of_empty.
Qed.

(** X13: deduplicating two batches one by one and then their concatenation
    gives what deduplicating the concatenation of the raw batches gives. *)
Theorem deduplicate_leads_batches (L1 L2 : list Lead) :
  deduplicate_leads (deduplicate_leads L1 ++ deduplicate_leads L2) =
  deduplicate_leads (L1 ++ L2).
Proof.
  unfold deduplicate_leads.
  rewrite !dedup_loop_app, dedup_loop_idem, seen_after_dedup, dedup_loop_twice.
  do 2 f_equal. apply set_eq. intros y. rewrite elem_of_union.
  split; [intros [?|H]; [done | by apply not_elem_of_empty in H] | tauto].
Qed.

(** ** Sub-runs that end *)

(** X14: a sub-run whose scroller sees counts that never shrink and stay
    within [bound] ends: after [20 * (bound + 1) + 1] iterations or more the
    run has returned or raised. *)
Theorem scrape_ends_when_counts_settle (items : nat -> list Card) (bound : nat)
    keyword city country max_results (s : Session) :
  polls s = always_found items →
  (∀ k, length (items k) ≤ length (items (S k))) →
  (∀ k, length (items k) ≤ bound) →
  ∀ fuel, 20 * (bound + 1) < fuel →
    scrape_google_maps fuel keyword city country max_results s ≠ None.
Proof.
  intros Hpolls Hgrow Hbound fuel Hfuel.
  unfold scrape_google_maps, scrape_run, scroll_results_panel.
  destruct (launch s _); [done|]. destruct (buttons s); [done|].
  destruct (results_page s) as [dom|e]; [|done].
  destruct (first_hit _ _); [|done].
  destruct (scroll_loop_stops items max_results bound Hgrow Hbound
              (20 * (bound + 1)) 0 0)
    as (n & _ & Hn & _ & _ & Hrun).
  - lia.
  - split; [lia|]. split; intros; lia.
  - simpl. lia.
  - intros j Hj. lia.
  - rewrite Hpolls. change 0 with (previous_count items 0) at 2.
    rewrite Hrun by lia. unfold always_found.
    destruct (loaded s); [|done]. by destruct (_ =? _)%Z.
Qed.

Lemma scrape_ends_when_counts_settle_witness :
  scrape_google_maps 81 "Bakery" "Leeds" "UK" 10 (session_of three_cards) ≠ None.
Proof.
  apply (scrape_ends_when_counts_settle (fun _ => three_cards) 3);
    [reflexivity | intros k; simpl; lia | intros k; simpl; lia | lia].
Defined.

(** ** Saving a bulk run: which leads go under which search *)

Lemma lower_app (a b : string) : Py.lower (a +:+ b) = Py.lower a +:+ Py.lower b.
Proof.
  induction a as [|c a IH]; [reflexivity|].
  rewrite !app_cons. cbn [Py.lower]. by rewrite IH, app_cons.
Qed.

Lemma prefix_empty (h : string) : String.prefix "" h = true.
Proof. by destruct h. Qed.

Lemma prefix_refl (a : string) : String.prefix a a = true.
Proof.
  induction a as [|c a IH]; [reflexivity|]. cbn [String.prefix].
  by destruct (ascii_dec c c).
Qed.

Lemma prefix_app_r (n h q : string) :
  String.prefix n h = true → String.prefix n (h +:+ q) = true.
Proof.
  revert h. induction n as [|c n IH]; intros h; [intros _; apply prefix_empty|].
  destruct h as [|d h]; [discriminate|]. rewrite app_cons. cbn [String.prefix].
  destruct (ascii_dec c d); [apply IH | discriminate].
Qed.

Lemma str_contains_refl (a : string) : str_contains a a = true.
Proof. destruct a; cbn [str_contains]; by rewrite prefix_refl. Qed.

Lemma str_contains_app_r (n h q : string) :
  str_contains n h = true → str_contains n (h +:+ q) = true.
Proof.
  induction h as [|d h IH].
  - cbn [str_contains]. rewrite orb_false_r. intros Hp.
    destruct n; [|discriminate]. cbn [String.append].
    destruct q; cbn [str_contains]; by rewrite ?prefix_empty.
  - rewrite app_cons. cbn [str_contains].
    intros [Hp|Hin]%orb_true_iff; apply orb_true_iff.
    + left. by apply (prefix_app_r n (String d h) q).
    + right. by apply IH.
Qed.

Lemma str_contains_app_l (n p h : string) :
  str_contains n h = true → str_contains n (p +:+ h) = true.
Proof.
  intros Hin. induction p as [|d p IH]; [done|].
  rewrite app_cons. cbn [str_contains]. apply orb_true_iff. by right.
Qed.

(** X15: when a bulk run is saved, a lead goes under every valid search whose
    keyword occurs, whatever the case, in the keyword, the city or the
    country of the search that found the lead; so each search gets its own
    leads, and may get those of other searches as well. *)
Theorem search_leads_by_substring (searches : list (gmap string string))
    (search origin : gmap string string) (leads : list Lead) (lead : Lead) :
  search ∈ valid_searches searches →
  lead ∈ leads →
  field lead "Search Query" =
    search_query (field origin "keyword") (field origin "city")
      (field origin "country") →
  str_contains (Py.lower (field search "keyword"))
    (Py.lower (field origin "keyword")) = true ∨
  str_contains (Py.lower (field search "keyword"))
    (Py.lower (field origin "city")) = true ∨
  str_contains (Py.lower (field search "keyword"))
    (Py.lower (field origin "country")) = true →
  lead ∈ search_leads search leads.
Proof.
  intros _ Hin Hquery Hoccurs. unfold search_leads.
  apply list_elem_of_In, filter_In. split; [by apply list_elem_of_In|].
  rewrite Hquery. unfold search_query. rewrite !lower_app.
  destruct Hoccurs as [H|[H|H]].
  - by apply str_contains_app_r.
  - do 2 apply str_contains_app_l. by apply str_contains_app_r.
  - by do 4 apply str_contains_app_l.
Qed.

(** under "Cafe" goes the lead that the search for bakeries of Cafe Row found *)
Lemma search_leads_by_substring_witness :
  row_lead ∈ search_leads cafe_search [row_lead].
Proof.
  apply (search_leads_by_substring [cafe_search; row_search] cafe_search row_search);
    [by_evaluation | apply list_elem_of_here | reflexivity
    | right; left; reflexivity].
Defined.
